(** * Gaussian98 log-file parsers of PyChem/molmod: a shallow embedding

    The development embeds [src/interfaces/g98/file_parsers.py]: the
    section tracker [LinkParser], and the collectors [HessianParser],
    [FrequenciesParser], [MassParser], [CoordinatesParser] and
    [EnergyParser].  Python objects become records, attribute updates
    become explicit state passing, and exceptions become the error side
    of a small result monad.

    The base class [MultiLineParser] and the driver that feeds the log
    to a parser live in [pychem.interfaces.output_parsers], which is
    not among the sources: module [MultiLineParser] below models them
    from the spec, and [float] and [from_angstrom] are parameters.

    Module [CPMDTrajectoryReader] embeds [lib/io/cpmd.py], the reader
    of CPMD trajectory files, over the same strings, arrays and
    numbers. *)

From Stdlib Require Import ZArith String Ascii List QArith Lia Bool.
From stdpp Require Import base tactics option list.
Import ListNotations.
Local Open Scope string_scope.
Local Open Scope list_scope.
Local Open Scope Z_scope.

(** ** Exceptions and the result monad *)

(** The Python exceptions the parsers can raise. *)
Inductive exn : Type :=
| IndexError
| ValueError
| AttributeError.

Inductive result (A : Type) : Type :=
| Ok (a : A)
| Raise (e : exn).
Arguments Ok {A} a.
Arguments Raise {A} e.

(** Sequencing: an exception raised by [m] skips [k]. *)
#[global] Instance result_bind : MBind result := fun A B k m =>
  match m with
  | Ok a => k a
  | Raise e => Raise e
  end.

#[global] Instance result_ret : MRet result := fun A a => Ok a.

(** [for x in xs: acc = body(x, acc)], stopping at the first exception. *)
Fixpoint foldM {A S : Type} (body : A -> S -> result S) (xs : list A) (s : S)
  : result S :=
  match xs with
  | [] => Ok s
  | x :: xs' => s1 ← body x s; foldM body xs' s1
  end.

(** [[f(x) for x in xs]], stopping at the first exception. *)
Fixpoint mapM {A B : Type} (f : A -> result B) (xs : list A) : result (list B) :=
  match xs with
  | [] => Ok []
  | x :: xs' => y ← f x; ys ← mapM f xs'; Ok (y :: ys)
  end.

(** ** Python strings *)

Module Py.

(** Indices of a slice bound, as [slice.indices] clamps them. *)
Definition clamp (len i : Z) : Z :=
  if i <? 0 then Z.max 0 (i + len) else Z.min i len.

(** [s[start:stop]]; [None] is an omitted bound. *)
Definition slice (s : string) (start stop : option Z) : string :=
  let n := Z.of_nat (String.length s) in
  let a := match start with None => 0 | Some i => clamp n i end in
  let b := match stop with None => n | Some j => clamp n j end in
  substring (Z.to_nat a) (Z.to_nat (b - a)) s.

Definition len (s : string) : Z := Z.of_nat (String.length s).

(** [str.isspace] on one character (C locale): space, \t, \n, \v, \f, \r. *)
Definition is_space (c : ascii) : bool :=
  let n := nat_of_ascii c in
  (n =? 32)%nat || ((9 <=? n)%nat && (n <=? 13)%nat).

Definition is_digit (c : ascii) : bool :=
  let n := nat_of_ascii c in
  (48 <=? n)%nat && (n <=? 57)%nat.

(** [s.split()]: the maximal runs of non-blank characters.  [cur] holds
    the run being read, reversed. *)
Fixpoint split_aux (s : string) (cur : list ascii) : list string :=
  let flush rest :=
    match cur with
    | [] => rest
    | _ => string_of_list_ascii (rev cur) :: rest
    end in
  match s with
  | EmptyString => flush []
  | String c s' =>
      if is_space c then flush (split_aux s' []) else split_aux s' (c :: cur)
  end.

Definition split (s : string) : list string := split_aux s [].

(** [s.find(c) >= 0] for a one-character needle. *)
Fixpoint contains (c : ascii) (s : string) : bool :=
  match s with
  | EmptyString => false
  | String a s' => if Ascii.eqb a c then true else contains c s'
  end.

(** [s.replace(a, b)] for one-character [a] and [b]. *)
Fixpoint replace (a b : ascii) (s : string) : string :=
  match s with
  | EmptyString => EmptyString
  | String c s' => String (if Ascii.eqb c a then b else c) (replace a b s')
  end.

(** [xs[i]] on a list: a negative index counts from the end, anything
    out of range raises [IndexError]. *)
Definition index {A : Type} (xs : list A) (i : Z) : result A :=
  let n := Z.of_nat (length xs) in
  let j := if i <? 0 then i + n else i in
  if (j <? 0) || (n <=? j) then Raise IndexError
  else match xs !! Z.to_nat j with
       | Some x => Ok x
       | None => Raise IndexError
       end.

(** The position [xs[i]] denotes, when it is in range. *)
Definition position {A : Type} (xs : list A) (i : Z) : result nat :=
  let n := Z.of_nat (length xs) in
  let j := if i <? 0 then i + n else i in
  if (j <? 0) || (n <=? j) then Raise IndexError else Ok (Z.to_nat j).

(** Value of a run of decimal digits, [None] on any other character. *)
Fixpoint digits_value (s : string) (acc : Z) : option Z :=
  match s with
  | EmptyString => Some acc
  | String c s' =>
      if is_digit c
      then digits_value s' (10 * acc + Z.of_nat (nat_of_ascii c) - 48)
      else None
  end.

(** [int(s)] on a token without blanks: an optional sign and at least
    one digit; anything else raises [ValueError]. *)
Definition int (s : string) : result Z :=
  let unsigned (t : string) : option Z :=
    match t with
    | EmptyString => None
    | _ => digits_value t 0
    end in
  let signed :=
    match s with
    | String "-" t => option_map Z.opp (unsigned t)
    | String "+" t => unsigned t
    | _ => unsigned s
    end in
  match signed with
  | Some z => Ok z
  | None => Raise ValueError
  end.

End Py.

(** ** Regular expressions

    The fragment of Python's [re] the parsers use: literal characters,
    [.], the classes [\s], [\S] and [\d], the greedy postfix [+] on one
    of these, and a named group [(?P<name>x+)] around such a repetition.
    Matching backtracks as [re] does: a repetition takes the longest
    run first and gives characters back one at a time. *)

Module Re.

Inductive cls : Type :=
| Lit (c : ascii)
| Dot
| Space
| NonSpace
| Digit.

Definition cls_match (k : cls) (a : ascii) : bool :=
  match k with
  | Lit c => Ascii.eqb a c
  | Dot => negb (Ascii.eqb a "010")
  | Space => Py.is_space a
  | NonSpace => negb (Py.is_space a)
  | Digit => Py.is_digit a
  end.

Inductive item : Type :=
| One (k : cls)
| Plus (k : cls)
| Group (name : string) (k : cls).

Definition regex : Type := list item.

(** What a match object holds: the text of each named group. *)
Definition groups : Type := list (string * string).

(** [k+] followed by [rest], longest run first; returns the run taken. *)
Fixpoint plus_greedy (k : cls) (rest : string -> option groups) (s : string)
  : option (string * groups) :=
  match s with
  | EmptyString => None
  | String a s' =>
      if cls_match k a then
        match plus_greedy k rest s' with
        | Some (w, g) => Some (String a w, g)
        | None =>
            match rest s' with
            | Some g => Some (String a EmptyString, g)
            | None => None
            end
        end
      else None
  end.

(** A match of [r] that starts at the head of the string. *)
Fixpoint match_here (r : regex) : string -> option groups :=
  match r with
  | [] => fun _ => Some []
  | One k :: r' => fun s =>
      match s with
      | String a s' => if cls_match k a then match_here r' s' else None
      | EmptyString => None
      end
  | Plus k :: r' => fun s =>
      match plus_greedy k (match_here r') s with
      | Some (_, g) => Some g
      | None => None
      end
  | Group name k :: r' => fun s =>
      match plus_greedy k (match_here r') s with
      | Some (w, g) => Some ((name, w) :: g)
      | None => None
      end
  end.

(** [r.search(s)]: the match at the leftmost position that has one. *)
Fixpoint search (r : regex) (s : string) : option groups :=
  match match_here r s with
  | Some g => Some g
  | None =>
      match s with
      | EmptyString => None
      | String _ s' => search r s'
      end
  end.

(** [match.group(name)]. *)
Fixpoint group (name : string) (g : groups) : result string :=
  match g with
  | [] => Raise IndexError
  | (n, w) :: g' => if String.eqb n name then Ok w else group name g'
  end.

(** *** Reading a pattern *)

Definition escape (c : ascii) : cls :=
  match c with
  | "s"%char => Space
  | "S"%char => NonSpace
  | "d"%char => Digit
  | _ => Lit c
  end.

Definition is_meta (c : ascii) : bool :=
  existsb (Ascii.eqb c)
    (list_ascii_of_string "()+*?[]{}|^$").

(** The one-character atom a pattern starts with, and what follows it. *)
Definition atom (p : string) : option (cls * string) :=
  match p with
  | String "\" (String c p') => Some (escape c, p')
  | String "." p' => Some (Dot, p')
  | String c p' => if is_meta c then None else Some (Lit c, p')
  | EmptyString => None
  end.

Fixpoint take_until (stop : ascii) (p : string) : option (string * string) :=
  match p with
  | EmptyString => None
  | String c p' =>
      if Ascii.eqb c stop then Some (EmptyString, p')
      else match take_until stop p' with
           | Some (w, rest) => Some (String c w, rest)
           | None => None
           end
  end.

Fixpoint compile_aux (fuel : nat) (p : string) : option regex :=
  match fuel with
  | O => None
  | S fuel' =>
      match p with
      | EmptyString => Some []
      | String "(" (String "?" (String "P" (String "<" p1))) =>
          match take_until ">" p1 with
          | Some (name, p2) =>
              match atom p2 with
              | Some (k, String "+" (String ")" p3)) =>
                  option_map (cons (Group name k)) (compile_aux fuel' p3)
              | _ => None
              end
          | None => None
          end
      | _ =>
          match atom p with
          | Some (k, String "+" p1) =>
              option_map (cons (Plus k)) (compile_aux fuel' p1)
          | Some (k, p1) => option_map (cons (One k)) (compile_aux fuel' p1)
          | None => None
          end
      end
  end.

(** [re.compile(p)]; [None] for a pattern outside the fragment. *)
Definition compile (p : string) : option regex :=
  compile_aux (S (String.length p)) p.

(** A compiled pattern of the source, [[]] only if it were outside the
    fragment (it never is: see [patterns_compile]). *)
Definition compiled (p : string) : regex :=
  match compile p with
  | Some r => r
  | None => []
  end.

End Re.

(** ** Floating-point numbers and numeric arrays

    The parsers never compute with the numbers they read: they convert
    a token with Python's [float], convert lengths with
    [pychem.units.from_angstrom] (a module that is not among the
    sources), and store the results.  Both are taken as an interface,
    so every theorem below holds for IEEE doubles as for any other
    reading of the tokens. *)

Class FloatModel (Float : Type) : Type := {
  (** [float(s)]; raises [ValueError] on a malformed token *)
  float : string -> result Float;
  (** [pychem.units.from_angstrom] *)
  from_angstrom : Float -> Float;
  (** the entry [Numeric.zeros] fills an array with *)
  zero : Float;
}.

Module Numeric.

(** A one-dimensional and a two-dimensional [Numeric] array. *)
Definition vector (Float : Type) : Type := list Float.
Definition matrix (Float : Type) : Type := list (list Float).

Section with_float.
Context {Float : Type} {FM : FloatModel Float}.

(** [Numeric.zeros((n, m), Numeric.Float)] *)
Definition zeros (n m : nat) : matrix Float := replicate n (replicate m zero).

(** [a[i, j] = v]; an index out of range raises [IndexError]. *)
Definition set (a : matrix Float) (i j : nat) (v : Float) : result (matrix Float) :=
  match a !! i with
  | Some row =>
      if (j <? length row)%nat
      then Ok (<[i := <[j := v]> row]> a)
      else Raise IndexError
  | None => Raise IndexError
  end.

(** [a[i][j]] *)
Definition get (a : matrix Float) (i j : nat) : option Float :=
  row ← a !! i; row !! j.

End with_float.
End Numeric.

(** [enumerate(xs)] *)
Definition enumerate {A : Type} (xs : list A) : list (nat * A) :=
  zip (seq 0 (length xs)) xs.

(** ** The collector interface

    The three per-episode callbacks a concrete parser overrides, and
    the accumulator its [reset] installs. *)

Class Collector (St : Type) : Type := {
  reset : St;
  start_collecting : St -> St;
  collect : string -> St -> result St;
  stop_collecting : St -> result St;
}.

(** ** The parser object *)

(** The constructor arguments [LinkParser.__init__] stores or passes on
    to the base class.  [condition] is the gating predicate, taken as
    the boolean it evaluates to for the pass. *)
Record config : Type := Config {
  link : string;
  activator : option Re.regex;
  deactivator : option Re.regex;
  condition : option bool;
}.

(** The attributes that change during a pass: [self.in_link] of
    [LinkParser], the flag [collecting] of the base class's window, and
    the accumulator of the concrete parser ([self.hessian],
    [self.energies], ...). *)
Record parser (St : Type) : Type := Parser {
  in_link : bool;
  collecting : bool;
  acc : St;
}.
Arguments Parser {St} in_link collecting acc.
Arguments in_link {St} p.
Arguments collecting {St} p.
Arguments acc {St} p.

Definition set_in_link {St : Type} (b : bool) (self : parser St) : parser St :=
  Parser b (collecting self) (acc self).

Definition set_acc {St : Type} (s : St) (self : parser St) : parser St :=
  Parser (in_link self) (collecting self) s.

Module MultiLineParser.
Section with_collector.
Context {St : Type} {C : Collector St}.

(** Modelled from the spec: the gating predicate of the base class
    [MultiLineParser] ([pychem.interfaces.output_parsers], which is not
    among the sources).  It is evaluated once for a pass; a parser
    without a predicate is never gated. *)
Definition gate_open (cfg : config) : bool :=
  match condition cfg with
  | None => true
  | Some b => b
  end.

(** Modelled from the spec: the test the base class [MultiLineParser]
    (not among the sources) makes of a line against its activator or
    deactivator, [r.search(line) != None]; a marker that is not
    configured matches nothing. *)
Definition matches (r : option Re.regex) (line : string) : bool :=
  match r with
  | Some re => bool_decide (is_Some (Re.search re line))
  | None => false
  end.

(** Modelled from the spec: [MultiLineParser.reset], which is not among
    the sources.  The window starts closed on a fresh accumulator. *)
Definition reset : parser St :=
  Parser false false (reset (Collector := C)).

(** Modelled from the spec: [MultiLineParser.parse], which is not among
    the sources; [LinkParser.parse] calls it for the lines it sees
    inside its link.  Without an activator every such line is
    collected.  With one, a line matching the deactivator while
    collecting calls [stop_collecting] and closes the window, a line
    matching the activator while not collecting calls
    [start_collecting] and opens it, and any other line is collected
    while the window is open.  A closed gate suppresses
    [start_collecting] and, without an activator, collection. *)
Definition parse (cfg : config) (self : parser St) (line : string)
  : result (parser St) :=
  match activator cfg with
  | None =>
      if gate_open cfg
      then s ← collect line (acc self); Ok (set_acc s self)
      else Ok self
  | Some _ =>
      if collecting self then
        if matches (deactivator cfg) line
        then s ← stop_collecting (acc self); Ok (Parser (in_link self) false s)
        else s ← collect line (acc self); Ok (set_acc s self)
      else
        if matches (activator cfg) line && gate_open cfg
        then Ok (Parser (in_link self) true (start_collecting (acc self)))
        else Ok self
  end.

(** Modelled from the spec: the [collecting] flag the window reports.
    Without an activator it is defined to hold exactly while the
    section is inside (and the gate is open); with one it is the
    stored flag. *)
Definition reports_collecting (cfg : config) (self : parser St) : bool :=
  match activator cfg with
  | None => in_link self && gate_open cfg
  | Some _ => collecting self
  end.

End with_collector.
End MultiLineParser.

Module LinkParser.
Section with_collector.
Context {St : Type} {C : Collector St}.

(** [line[:11] == " Leave Link" and line[13:13+len(self.link)] == self.link] *)
Definition leave_marker (lnk line : string) : bool :=
  String.eqb (Py.slice line None (Some 11)) " Leave Link"
  && String.eqb (Py.slice line (Some 13) (Some (13 + Py.len lnk))) lnk.

(** [line[:8] == " (Enter " and line[-6-len(self.link):-6] == self.link] *)
Definition enter_marker (lnk line : string) : bool :=
  String.eqb (Py.slice line None (Some 8)) " (Enter "
  && String.eqb (Py.slice line (Some (-6 - Py.len lnk)) (Some (-6))) lnk.

(** [LinkParser.reset] *)
Definition reset : parser St :=
  set_in_link false MultiLineParser.reset.

(** [LinkParser.parse]: the three [if] statements in order. *)
Definition parse (cfg : config) (self : parser St) (line : string)
  : result (parser St) :=
  let self :=
    if leave_marker (link cfg) line then set_in_link false self else self in
  self ← (if in_link self then MultiLineParser.parse cfg self line else Ok self);
  Ok (if enter_marker (link cfg) line then set_in_link true self else self).

(** Modelled from the spec: the driver (not among the sources), which
    reads the log and feeds every line, in order, to the parser. *)
Definition parse_lines (cfg : config) (lines : list string) (self : parser St)
  : result (parser St) :=
  foldM (fun line self => parse cfg self line) lines self.

End with_collector.
End LinkParser.

(** [ThermoChemParser.__init__]: link 716. *)
Definition ThermoChemParser (activator deactivator : option Re.regex)
  (condition : option bool) : config :=
  Config "716" activator deactivator condition.

(** [ConfigurationParser.__init__]: link 202. *)
Definition ConfigurationParser (activator deactivator : option Re.regex)
  (condition : option bool) : config :=
  Config "202" activator deactivator condition.

(** [SCFParser.__init__]: link 502. *)
Definition SCFParser (activator deactivator : option Re.regex)
  (condition : option bool) : config :=
  Config "502" activator deactivator condition.

(** ** HessianParser *)

Module HessianParser.
Section with_float.
Context {Float : Type} {FM : FloatModel Float}.

(** [self.hessian]: a Python list of rows while an episode is read, a
    [Numeric] array once [stop_collecting] has run. *)
Inductive state : Type :=
| Rows (rows : list (list Float))
| Array (a : Numeric.matrix Float).

Definition rows_of (self : state) : list (list Float) :=
  match self with
  | Rows rows => rows
  | Array a => a
  end.

Definition config (condition : option bool) : config :=
  ThermoChemParser
    (Some (Re.compiled "Force constants in Cartesian coordinates:"))
    (Some (Re.compiled "Force constants in internal coordinates:"))
    condition.

Definition reset : state := Rows [].

Definition start_collecting (self : state) : state := Rows [].

(** [for word in words[1:]: row.append(float(word.replace("D", "e")))] *)
Definition append_words (words : list string) (row : list Float)
  : result (list Float) :=
  foldM (fun word row =>
           v ← float (Py.replace "D" "e" word); Ok (row ++ [v]))
        words row.

Definition collect (line : string) (self : state) : result state :=
  let words := Py.split line in
  w1 ← Py.index words 1;
  if Py.contains "D" w1 then
    w0 ← Py.index words 0;
    row_number ← Py.int w0;
    match self with
    | Rows rows =>
        if Z.of_nat (length rows) <=? row_number then
          row ← append_words (drop 1 words) [];
          Ok (Rows (rows ++ [row]))
        else
          i ← Py.position rows (row_number - 1);
          old ← Py.index rows (row_number - 1);
          row ← append_words (drop 1 words) old;
          Ok (Rows (<[i := row]> rows))
    | Array a =>
        (* a [Numeric] array has no [append] *)
        if Z.of_nat (length a) <=? row_number then Raise AttributeError
        else _ ← Py.index a (row_number - 1); Raise AttributeError
    end
  else Ok self.

(** The body of the inner loop of [stop_collecting]. *)
Definition store (row_index : nat) (entry : nat * Float) (hessian : Numeric.matrix Float)
  : result (Numeric.matrix Float) :=
  let '(col_index, value) := entry in
  hessian ← Numeric.set hessian row_index col_index value;
  if negb (row_index =? col_index)%nat
  then Numeric.set hessian col_index row_index value
  else Ok hessian.

Definition stop_collecting (self : state) : result state :=
  let rows := rows_of self in
  let n := length rows in
  hessian ← foldM (fun '(row_index, row) hessian =>
                     foldM (store row_index) (enumerate row) hessian)
                  (enumerate rows) (Numeric.zeros n n);
  Ok (Array hessian).

Definition result (self : state) : state := self.

#[global] Instance collector : Collector state :=
  Build_Collector state reset start_collecting
    collect stop_collecting.

End with_float.
Arguments state Float : clear implicits.
End HessianParser.

(** ** FrequenciesParser *)

Module FrequenciesParser.
Section with_float.
Context {Float : Type} {FM : FloatModel Float}.

Definition state : Type := list Float.

Definition config (condition : option bool) : config :=
  ThermoChemParser None None condition.

Definition reset : state := [].

(** [pattern] is the label the subclass passes to [__init__]. *)
Definition collect (pattern : string) (line : string) (self : state)
  : result state :=
  if String.eqb (Py.slice line None (Some (Py.len pattern))) pattern then
    let words := Py.split (Py.slice line (Some (Py.len pattern)) None) in
    values ← mapM float words;
    Ok (self ++ values)
  else Ok self.

Definition result (self : state) : Numeric.vector Float := self.

(** Modelled from the spec: [start_collecting] and [stop_collecting],
    which this parser inherits from the base class [MultiLineParser]
    (not among the sources) and the spec gives as no-ops.  [reset] and
    [collect] are the source's. *)
Definition collector (pattern : string) : Collector state :=
  Build_Collector state reset (fun self => self)
    (collect pattern) (fun self => Ok self).

(** [LowFrequenciesParser] and [SelectedFrequenciesParser]. *)
Definition LowFrequenciesParser : Collector state :=
  collector " Low frequencies ---".
Definition SelectedFrequenciesParser : Collector state :=
  collector " Frequencies --".

End with_float.
Arguments state Float : clear implicits.
End FrequenciesParser.

(** ** MassParser *)

Module MassParser.
Section with_float.
Context {Float : Type} {FM : FloatModel Float}.

(** [self.masses]: a Python list while an episode is read, a [Numeric]
    array once [stop_collecting] has run. *)
Inductive state : Type :=
| PyList (masses : list Float)
| Array (a : Numeric.vector Float).

Definition config (condition : option bool) : config :=
  ThermoChemParser
    (Some (Re.compiled "Temperature\s+\S+\s+Kelvin.\s+Pressure\s+\S+\s+Atm."))
    (Some (Re.compiled "Molecular mass:\s+\S+\s+amu."))
    condition.

Definition re : Re.regex :=
  Re.compiled "Atom\s+\d+\s+has atomic number\s+\d+\s+and mass\s+(?P<mass>\S+)".

Definition reset : state := PyList [].

Definition start_collecting (self : state) : state := PyList [].

Definition collect (line : string) (self : state) : result state :=
  match Re.search re line with
  | Some m =>
      match self with
      | PyList masses =>
          w ← Re.group "mass" m;
          v ← float w;
          Ok (PyList (masses ++ [v]))
      | Array _ => Raise AttributeError
      end
  | None => Ok self
  end.

Definition stop_collecting (self : state) : result state :=
  match self with
  | PyList masses => Ok (Array masses)
  | Array a => Ok (Array a)
  end.

Definition result (self : state) : state := self.

#[global] Instance collector : Collector state :=
  Build_Collector state reset start_collecting
    collect stop_collecting.

End with_float.
Arguments state Float : clear implicits.
End MassParser.

(** ** CoordinatesParser *)

Module CoordinatesParser.
Section with_float.
Context {Float : Type} {FM : FloatModel Float}.

(** [self.coordinates] and [self.current_coordinates]; the latter does
    not exist before the first [start_collecting]. *)
Record state : Type := State {
  coordinates : list (Numeric.matrix Float);
  current_coordinates : option (list (list Float));
}.

Definition config (condition : option bool) : config :=
  ConfigurationParser
    (Some (Re.compiled "Input orientation:"))
    (Some (Re.compiled "Distance matrix \(angstroms\):"))
    condition.

Definition re : Re.regex :=
  Re.compiled "\d+\s+\d+\s+\d+\s+(?P<x>\S+)\s+(?P<y>\S+)\s+(?P<z>\S+)".

Definition reset : state := State [] None.

Definition start_collecting (self : state) : state :=
  State (coordinates self) (Some []).

(** [from_angstrom(float(match.group(name)))] *)
Definition coordinate (m : Re.groups) (name : string) : result Float :=
  w ← Re.group name m;
  v ← float w;
  Ok (from_angstrom v).

Definition collect (line : string) (self : state) : result state :=
  match Re.search re line with
  | Some m =>
      match current_coordinates self with
      | Some current =>
          x ← coordinate m "x";
          y ← coordinate m "y";
          z ← coordinate m "z";
          Ok (State (coordinates self) (Some (current ++ [[x; y; z]])))
      | None => Raise AttributeError
      end
  | None => Ok self
  end.

Definition stop_collecting (self : state) : result state :=
  match current_coordinates self with
  | Some current =>
      Ok (State (coordinates self ++ [current]) (current_coordinates self))
  | None => Raise AttributeError
  end.

Definition result (self : state) : list (Numeric.matrix Float) := coordinates self.

#[global] Instance collector : Collector state :=
  Build_Collector state reset start_collecting
    collect stop_collecting.

End with_float.
Arguments state Float : clear implicits.
End CoordinatesParser.

(** ** EnergyParser *)

Module EnergyParser.
Section with_float.
Context {Float : Type} {FM : FloatModel Float}.

Definition state : Type := list Float.

Definition config (condition : option bool) : config :=
  SCFParser None None condition.

Definition re : Re.regex :=
  Re.compiled "SCF Done:\s+E\S+\s+=\s+(?P<energy>\S+)\s+A.U.".

Definition reset : state := [].

Definition collect (line : string) (self : state) : result state :=
  match Re.search re line with
  | Some m =>
      w ← Re.group "energy" m;
      v ← float w;
      Ok (self ++ [v])
  | None => Ok self
  end.

Definition result (self : state) : Numeric.vector Float := self.

(** Modelled from the spec: [start_collecting] and [stop_collecting],
    which this parser inherits from the base class [MultiLineParser]
    (not among the sources) and the spec gives as no-ops.  [reset] and
    [collect] are the source's. *)
#[global] Instance collector : Collector state :=
  Build_Collector state reset (fun self => self)
    collect (fun self => Ok self).

End with_float.
Arguments state Float : clear implicits.
End EnergyParser.

(** ** Observing the callbacks

    A collector that records, in order, every callback it receives. *)

Module Trace.

Inductive call : Type :=
| StartCollecting
| Collect (line : string)
| StopCollecting.

#[global] Instance tracer : Collector (list call) :=
  {| reset := [];
     start_collecting := fun t => t ++ [StartCollecting];
     collect := fun line t => Ok (t ++ [Collect line]);
     stop_collecting := fun t => Ok (t ++ [StopCollecting]) |}.

(** The callbacks of a trace, run on a collector [C]. *)
Definition replay {St : Type} {C : Collector St} (calls : list call) (s : St)
  : result St :=
  foldM (fun c s =>
           match c with
           | StartCollecting => Ok (start_collecting s)
           | Collect line => collect line s
           | StopCollecting => stop_collecting s
           end)
        calls s.

End Trace.

(** ** An exact reading of decimal literals

    One [FloatModel], used to run the parsers on concrete logs: a token
    [[+-]digits[.digits][(e|E)[+-]digits]] denotes the rational it
    spells, and one angstrom is 1/0.5291772083 atomic units. *)

Module Decimal.

Fixpoint span_digits (s : string) : string * string :=
  match s with
  | String c s' =>
      if Py.is_digit c
      then let '(d, r) := span_digits s' in (String c d, r)
      else (EmptyString, s)
  | EmptyString => (EmptyString, EmptyString)
  end.

Definition sign (s : string) : bool * string :=
  match s with
  | String "-" t => (true, t)
  | String "+" t => (false, t)
  | _ => (false, s)
  end.

Definition value (neg : bool) (digits : string) : Z :=
  let v := default 0 (Py.digits_value digits 0) in
  if neg then - v else v.

Definition exponent (s : string) : option Z :=
  match s with
  | EmptyString => Some 0
  | String c t =>
      if Ascii.eqb c "e" || Ascii.eqb c "E" then
        let '(neg, t1) := sign t in
        let '(d, t2) := span_digits t1 in
        match d, t2 with
        | String _ _, EmptyString => Some (value neg d)
        | _, _ => None
        end
      else None
  end.

Definition float (s : string) : result Q :=
  let '(neg, s1) := sign s in
  let '(ip, s2) := span_digits s1 in
  let '(fp, s3) :=
    match s2 with
    | String "." t => span_digits t
    | _ => (EmptyString, s2)
    end in
  match String.append ip fp, exponent s3 with
  | String _ _ as digits, Some e =>
      Ok (Qred (inject_Z (value neg digits)
                * Qpower (inject_Z 10) (e - Py.len fp)))
  | _, _ => Raise ValueError
  end.

Definition from_angstrom (x : Q) : Q :=
  Qred (x / (5291772083 # 10000000000)).

#[global] Instance model : FloatModel Q :=
  Build_FloatModel Q float from_angstrom 0%Q.

End Decimal.

(** * The CPMD trajectory reader

    [lib/io/cpmd.py].  The base class [SlicedReader] keeps the open
    file in [self._f]; here the file is the list of its lines that are
    still to be read, and [next] on an exhausted file raises
    [StopIteration]. *)

Module CPMDTrajectoryReader.

(** What ends a method before its [return]: the end of the file, or
    an exception raised while a line is read. *)
Inductive signal : Type :=
| StopIteration
| Error (e : exn).

Inductive outcome (A : Type) : Type :=
| Return (a : A)
| Throw (s : signal).
Arguments Return {A} a.
Arguments Throw {A} s.

(** [self._f] and [self.num_atoms] *)
Record reader : Type := Reader {
  _f : list string;
  num_atoms : nat;
}.

(** The loop of [__init__] over the lines of the file; [s] is [None]
    until the first line was read. *)
Fixpoint count_atoms (s : option string) (num_atoms : nat) (f : list string)
  : nat :=
  match f with
  | [] => num_atoms
  | line :: f' =>
      match s with
      | None =>
          count_atoms (Some (Py.slice line None (Some 7))) (S num_atoms) f'
      | Some s0 =>
          if negb (String.eqb s0 (Py.slice line None (Some 7)))
          then num_atoms
          else count_atoms s (S num_atoms) f'
      end
  end.

(** [__init__] on the lines of the file; after [seek(0)] all of them
    are to be read again. *)
Definition __init__ (f : list string) : reader :=
  Reader f (count_atoms None 0 f).

Section with_float.
Context {Float : Type} {FM : FloatModel Float}.

(** The arrays [pos] and [vel]. *)
Definition frame : Type := Numeric.matrix Float * Numeric.matrix Float.

(** The body of the loop of [_read_frame] once the line is read: six
    assignments, each indexing [words], converting, and storing. *)
Definition read_atom (i : nat) (line : string) (fr : frame) : result frame :=
  let '(pos, vel) := fr in
  let words := Py.split line in
  w ← Py.index words 1; v ← float w; pos ← Numeric.set pos i 0 v;
  w ← Py.index words 2; v ← float w; pos ← Numeric.set pos i 1 v;
  w ← Py.index words 3; v ← float w; pos ← Numeric.set pos i 2 v;
  w ← Py.index words 4; v ← float w; vel ← Numeric.set vel i 0 v;
  w ← Py.index words 5; v ← float w; vel ← Numeric.set vel i 1 v;
  w ← Py.index words 6; v ← float w; vel ← Numeric.set vel i 2 v;
  Ok (pos, vel).

(** [for i in xrange(self.num_atoms)] of [_read_frame], with the lines
    left in the file. *)
Fixpoint read_atoms (atoms : list nat) (fr : frame) (f : list string)
  : outcome frame * list string :=
  match atoms with
  | [] => (Return fr, f)
  | i :: atoms' =>
      match f with
      | [] => (Throw StopIteration, [])
      | line :: f' =>
          match read_atom i line fr with
          | Ok fr' => read_atoms atoms' fr' f'
          | Raise e => (Throw (Error e), f')
          end
      end
  end.

Definition _read_frame (self : reader) : outcome frame * reader :=
  let n := num_atoms self in
  let pos := Numeric.zeros n 3 in
  let vel := Numeric.zeros n 3 in
  let '(r, f) := read_atoms (seq 0 n) (pos, vel) (_f self) in
  (r, Reader f n).

(** [for i in xrange(self.num_atoms)] of [_skip_frame]. *)
Fixpoint skip_atoms (atoms : list nat) (f : list string)
  : outcome unit * list string :=
  match atoms with
  | [] => (Return tt, f)
  | i :: atoms' =>
      match f with
      | [] => (Throw StopIteration, [])
      | line :: f' => skip_atoms atoms' f'
      end
  end.

Definition _skip_frame (self : reader) : outcome unit * reader :=
  let n := num_atoms self in
  let '(r, f) := skip_atoms (seq 0 n) (_f self) in
  (r, Reader f n).

End with_float.
Arguments frame Float : clear implicits.
End CPMDTrajectoryReader.

(** * The shapes of logs and episodes the theorems speak about *)

(** ** The tracker alone *)

(** [in_link] after a line, from [in_link] before it. *)
Definition tracker_step (lnk : string) (inside : bool) (line : string) : bool :=
  if LinkParser.enter_marker lnk line then true
  else if LinkParser.leave_marker lnk line then false
  else inside.

(** Lines between two passes: none is an entry line. *)
Definition outside_ok (lnk : string) (lines : list string) : bool :=
  forallb (fun l => negb (LinkParser.enter_marker lnk l)) lines.

(** Lines inside a pass: none is an exit line. *)
Definition inside_ok (lnk : string) (lines : list string) : bool :=
  forallb (fun l => negb (LinkParser.leave_marker lnk l)) lines.

(** ** Logs made of entry/exit cycles *)

(** One pass through the link: the entry line, the lines inside, the
    exit line, and the lines up to the next entry. *)
Record cycle : Type := Cycle {
  cycle_enter : string;
  cycle_body : list string;
  cycle_leave : string;
  cycle_after : list string;
}.

Definition cycle_lines (c : cycle) : list string :=
  cycle_enter c :: cycle_body c ++ cycle_leave c :: cycle_after c.

Definition cycles_log (before : list string) (cycles : list cycle) : list string :=
  before ++ concat (map cycle_lines cycles).

Definition cycle_ok (lnk : string) (c : cycle) : bool :=
  LinkParser.enter_marker lnk (cycle_enter c)
  && inside_ok lnk (cycle_body c)
  && LinkParser.leave_marker lnk (cycle_leave c)
  && outside_ok lnk (cycle_after c).

(** ** Episodes *)

(** One collection episode on a collector: [start_collecting], the
    data lines, [stop_collecting]. *)
Definition episode {St : Type} {C : Collector St} (data : list string) (s : St)
  : result St :=
  foldM collect data (start_collecting s) ≫= stop_collecting.

(** Lines that leave a closed window closed: no activator in them. *)
Definition no_activator (cfg : config) (lines : list string) : bool :=
  forallb (fun l => negb (MultiLineParser.matches (activator cfg) l)) lines.

(** Lines inside the link before or after an episode. *)
Definition idle_ok (cfg : config) (lines : list string) : bool :=
  inside_ok (link cfg) lines && no_activator cfg lines.

(** Data lines of an episode: inside the link, none is the deactivator. *)
Definition data_ok (cfg : config) (lines : list string) : bool :=
  inside_ok (link cfg) lines
  && forallb (fun l => negb (MultiLineParser.matches (deactivator cfg) l)) lines.

(** One pass through the link that holds one episode. *)
Record step : Type := Step {
  step_enter : string;
  step_head : list string;
  step_activator : string;
  step_data : list string;
  step_deactivator : string;
  step_tail : list string;
  step_leave : string;
  step_after : list string;
}.

Definition step_lines (st : step) : list string :=
  step_enter st :: step_head st
  ++ step_activator st :: step_data st
  ++ step_deactivator st :: step_tail st
  ++ step_leave st :: step_after st.

Definition step_ok (cfg : config) (st : step) : bool :=
  LinkParser.enter_marker (link cfg) (step_enter st)
  && idle_ok cfg (step_head st)
  && negb (LinkParser.leave_marker (link cfg) (step_activator st))
  && MultiLineParser.matches (activator cfg) (step_activator st)
  && data_ok cfg (step_data st)
  && negb (LinkParser.leave_marker (link cfg) (step_deactivator st))
  && MultiLineParser.matches (deactivator cfg) (step_deactivator st)
  && idle_ok cfg (step_tail st)
  && LinkParser.leave_marker (link cfg) (step_leave st)
  && outside_ok (link cfg) (step_after st).

(** ** What the collectors extract *)

(** The names of the groups of a pattern, in order. *)
Fixpoint group_names (r : Re.regex) : list string :=
  match r with
  | [] => []
  | Re.Group name _ :: r' => name :: group_names r'
  | _ :: r' => group_names r'
  end.

(** The tokens the energy pattern captures, one for each matching line. *)
Definition energy_tokens (lines : list string) : list string :=
  omap (fun line =>
          match Re.search EnergyParser.re line with
          | Some ((_, w) :: _) => Some w
          | _ => None
          end)
       lines.

(** The row [collect] appends for a match: three converted numbers. *)
Definition row_of_match {Float : Type} {FM : FloatModel Float}
  (m : Re.groups) : result (list Float) :=
  x ← CoordinatesParser.coordinate m "x";
  y ← CoordinatesParser.coordinate m "y";
  z ← CoordinatesParser.coordinate m "z";
  Ok [x; y; z].

(** The array of an episode: one row for each matching data line. *)
Definition geometry {Float : Type} {FM : FloatModel Float}
  (data : list string) : result (Numeric.matrix Float) :=
  mapM row_of_match (omap (Re.search CoordinatesParser.re) data).

(** The same array told from the line alone.  The tokens the
    coordinates pattern captures in a line, in the order of the line;
    the row of three tokens, each read as a number and taken from
    angstrom to the internal unit; the array of the data lines of an
    episode, one row for each line the pattern matches. *)
Definition xyz_tokens (line : string) : option (string * string * string) :=
  match Re.search CoordinatesParser.re line with
  | Some [(_, x); (_, y); (_, z)] => Some (x, y, z)
  | _ => None
  end.

Definition xyz_row {Float : Type} {FM : FloatModel Float}
  (tokens : string * string * string) : result (list Float) :=
  let '(x, y, z) := tokens in
  x ← float x; y ← float y; z ← float z;
  Ok [from_angstrom x; from_angstrom y; from_angstrom z].

Definition episode_array {Float : Type} {FM : FloatModel Float}
  (data : list string) : result (Numeric.matrix Float) :=
  mapM xyz_row (omap xyz_tokens data).

(** All the tokens of the data lines of an episode. *)
Definition coordinate_tokens (data : list string) : list string :=
  concat (map (fun '(x, y, z) => [x; y; z]) (omap xyz_tokens data)).

(** ** The episodes of a log *)

(** The lines of a log that are read inside the link: a line with the
    exit marker is none of them, and the entry line is one only when
    the link was entered before.  [inside] tells whether the log starts
    inside the link. *)
Fixpoint visible (lnk : string) (inside : bool) (log : list string)
  : list string :=
  match log with
  | [] => []
  | line :: log' =>
      if LinkParser.leave_marker lnk line then visible lnk false log'
      else (if inside then [line] else [])
           ++ visible lnk (inside || LinkParser.enter_marker lnk line) log'
  end.

(** The episodes among such lines, in file order: an episode starts
    after a line that matches the activator and ends before the next
    line that matches the deactivator; its data lines are the lines in
    between.  [cur] holds the data lines of the episode being read, if
    one is.  The result is the finished episodes and the episode the
    lines leave unfinished, if any. *)
Fixpoint episodes_from (cfg : config) (cur : option (list string))
  (lines : list string) : list (list string) * option (list string) :=
  match lines with
  | [] => ([], cur)
  | line :: lines' =>
      match cur with
      | Some data =>
          if MultiLineParser.matches (deactivator cfg) line
          then let '(finished, unfinished) := episodes_from cfg None lines' in
               (data :: finished, unfinished)
          else episodes_from cfg (Some (data ++ [line])) lines'
      | None =>
          if MultiLineParser.matches (activator cfg) line
          then episodes_from cfg (Some []) lines'
          else episodes_from cfg None lines'
      end
  end.

(** The episodes of a log of the coordinates parser. *)
Definition geometry_episodes (log : list string)
  : list (list string) * option (list string) :=
  episodes_from (CoordinatesParser.config None) None (visible "202" false log).

(** What a log of the coordinates parser comes to: one array for each
    finished episode, in file order.  An unfinished episode adds no
    array, but a number in it that does not read is an error all the
    same. *)
Definition episode_arrays {Float : Type} {FM : FloatModel Float}
  (episodes : list (list string) * option (list string))
  : result (list (Numeric.matrix Float)) :=
  arrays ← mapM episode_array episodes.1;
  _ ← mapM episode_array (option_list episodes.2);
  Ok arrays.

(** A symmetric array, and an [n] by [n] array. *)
Definition symmetric {Float : Type} (a : Numeric.matrix Float) : Prop :=
  forall i j, Numeric.get a i j = Numeric.get a j i.

Definition square {Float : Type} (n : nat) (a : Numeric.matrix Float) : Prop :=
  length a = n /\ Forall (fun row => length row = n) a.

(** * Concrete logs *)

Definition newline : string := String "010" EmptyString.

(** Marker lines of link 502 as Gaussian writes them, each read with
    its line end. *)
Definition enter_502 : string :=
  String.append " (Enter /usr/local/g98/l502.exe)" newline.
Definition leave_502 : string :=
  String.append " Leave Link  502 at Thu Jan  6 11:52:07 2005, MaxMem=    6291456 cpu:       1.3" newline.

(** An entry-marker line that is also an energy line. *)
Definition enter_502_with_energy : string :=
  String.append " (Enter SCF Done:  E(RHF) =  -1.5     A.U. after l502.exe)" newline.

(** The spec's block with its markers at the columns [LinkParser.parse]
    reads: the link number ends six characters before the end of the
    entry line (here [.exe)] and the line end), and starts at column 13
    of the exit line. *)
Definition scf_block (energy : string) : list string :=
  [ String.append " (Enter l502.exe)" newline;
    String.append "SCF Done: E(...) = " (String.append energy " A.U.");
    " Leave Link  502" ].

(** The spec's block as the spec spells it. *)
Definition scf_block_as_spelled (energy : string) : list string :=
  [ " (Enter l502)";
    String.append "SCF Done: E(...) = " (String.append energy " A.U.");
    " Leave Link502" ].

(** A log with two passes through link 502: an energy line before the
    first entry and one between the passes (neither inside the link),
    and three energy lines inside. *)
Definition two_cycles_before : list string :=
  [ " SCF Done:  E(RHF) =  -9.75     A.U. after    1 cycles" ].
Definition two_cycles : list cycle :=
  [ Cycle enter_502
      [ " Closed shell SCF:";
        " SCF Done:  E(RHF) =  -1.5     A.U. after    9 cycles";
        " SCF Done:  E(RHF) =  -1.25     A.U. after    3 cycles" ]
      leave_502
      [ " SCF Done:  E(RHF) =  -7.5     A.U. after    2 cycles" ];
    Cycle enter_502
      [ " SCF Done:  E(RHF) =  -2.5     A.U. after    7 cycles" ]
      leave_502
      [ " Normal termination of Gaussian 98." ] ].

(** Marker lines of link 202 as Gaussian writes them. *)
Definition enter_202 : string :=
  String.append " (Enter /usr/local/g98/l202.exe)" newline.
Definition leave_202 : string :=
  String.append " Leave Link  202 at Thu Jan  6 11:52:05 2005, MaxMem=    6291456 cpu:       0.1" newline.

Definition atom_line_1 : string :=
  "    1          1             0        0.000000    0.000000    0.000000".
Definition atom_line_2 : string :=
  "    2          1             0        0.000000    0.000000    0.750000".

(** Two geometry blocks of a two-atom molecule, in angstrom. *)
Definition geometry_block_1 : list string :=
  [ " ---------------------------------------------------------------------";
    "    1          1             0        0.000000    0.000000    0.000000";
    "    2          1             0        0.000000    0.000000    0.750000";
    " ---------------------------------------------------------------------" ].
Definition geometry_block_2 : list string :=
  [ "    1          1             0        0.000000    0.000000    0.010000";
    "    2          1             0        0.000000    0.000000    0.740000" ].

(** The arrays of the two blocks, in atomic units. *)
Definition geometry_1 : Numeric.matrix Q :=
  [ [0; 0; 0]; [0; 0; 7500000000 # 5291772083] ]%Q.
Definition geometry_2 : Numeric.matrix Q :=
  [ [0; 0; 100000000 # 5291772083]; [0; 0; 7400000000 # 5291772083] ]%Q.

(** Two optimisation steps of a two-atom molecule. *)
Definition two_steps : list step :=
  [ Step enter_202
      [ " Stoichiometry    H2" ]
      "                          Input orientation:                          "
      geometry_block_1
      "                    Distance matrix (angstroms):"
      [ "     1  H    0.000000" ]
      leave_202
      [ enter_502; leave_502 ];
    Step enter_202
      []
      "                          Input orientation:                          "
      geometry_block_2
      "                    Distance matrix (angstroms):"
      []
      leave_202
      [] ].

(** A log as Gaussian writes it: lines before the first pass through
    link 202, among them one that looks like a geometry block; a pass
    with two geometry blocks; a pass through link 502; a pass with no
    block; and a last pass whose block the log does not finish. *)
Definition optimisation_log : list string :=
  [ " Entering Gaussian System, Link 0=g98";
    "                          Input orientation:                          ";
    atom_line_2;
    enter_202;
    " Stoichiometry    H2";
    "                          Input orientation:                          " ]
  ++ geometry_block_1
  ++ [ "                    Distance matrix (angstroms):";
       "     1  H    0.000000";
       "                          Input orientation:                          " ]
  ++ geometry_block_2
  ++ [ "                    Distance matrix (angstroms):";
       leave_202;
       enter_502;
       atom_line_1;
       leave_502;
       enter_202;
       " Stoichiometry    H2";
       leave_202;
       enter_202;
       "                          Input orientation:                          ";
       atom_line_1 ].

(** The Hessian block Gaussian prints for the nine coordinates of a
    three-atom molecule: the columns 1 to 5
    of all rows, then the columns 6 to 9 of the rows 6 to 9.  The entry
    of row [i] and column [j] is the number [10 i + j]. *)
Definition hessian_block : list string :=
  [ "                1             2             3             4             5 ";
    "      1  0.11D+02";
    "      2  0.21D+02  0.22D+02";
    "      3  0.31D+02  0.32D+02  0.33D+02";
    "      4  0.41D+02  0.42D+02  0.43D+02  0.44D+02";
    "      5  0.51D+02  0.52D+02  0.53D+02  0.54D+02  0.55D+02";
    "      6  0.61D+02  0.62D+02  0.63D+02  0.64D+02  0.65D+02";
    "      7  0.71D+02  0.72D+02  0.73D+02  0.74D+02  0.75D+02";
    "      8  0.81D+02  0.82D+02  0.83D+02  0.84D+02  0.85D+02";
    "      9  0.91D+02  0.92D+02  0.93D+02  0.94D+02  0.95D+02";
    "                6             7             8             9 ";
    "      6  0.66D+02";
    "      7  0.76D+02  0.77D+02";
    "      8  0.86D+02  0.87D+02  0.88D+02";
    "      9  0.96D+02  0.97D+02  0.98D+02  0.99D+02" ].

(** What [stop_collecting] makes of the block. *)
Definition hessian_block_array : list (list Q) :=
  [ [11; 21; 31; 41; 51; 61; 71; 81; 91; 96];
    [21; 22; 32; 42; 52; 62; 72; 82; 92; 97];
    [31; 32; 33; 43; 53; 63; 73; 83; 93; 98];
    [41; 42; 43; 44; 54; 64; 74; 84; 94; 99];
    [51; 52; 53; 54; 55; 65; 75; 85; 95;  0];
    [61; 62; 63; 64; 65; 66; 76; 86;  0;  0];
    [71; 72; 73; 74; 75; 76; 77; 87;  0;  0];
    [81; 82; 83; 84; 85; 86; 87; 88;  0;  0];
    [91; 92; 93; 94; 95;  0;  0;  0;  0;  0];
    [96; 97; 98; 99;  0;  0;  0;  0;  0;  0] ]%Q.

(** * Shapes of accumulators and of data lines *)

(** Rows of a lower triangle: row [i] (from 0) has at most [i + 1]
    entries. *)
Definition lower_triangular {Float : Type} (rows : list (list Float)) : bool :=
  forallb (fun '(i, row) => (length row <=? S i)%nat) (enumerate rows).

(** The entries of the rows before [k], and of row [k] before column
    [m], stand in the array at their place and at the mirrored one. *)
Definition stored {Float : Type} (rows : list (list Float)) (k m : nat)
  (a : Numeric.matrix Float) : Prop :=
  forall i j row v,
    (i < k)%nat \/ (i = k /\ (j < m)%nat) ->
    rows !! i = Some row -> row !! j = Some v ->
    Numeric.get a i j = Some v /\ Numeric.get a j i = Some v.

(** No row is longer than the number of rows. *)
Definition rows_fit {Float : Type} (rows : list (list Float)) : bool :=
  forallb (fun row => (length row <=? length rows)%nat) rows.

(** The numbers of a data line of the Hessian block: every word after
    the row number, with [D] turned into [e]. *)
Definition row_values {Float : Type} {FM : FloatModel Float} (line : string)
  : result (list Float) :=
  mapM (fun word => float (Py.replace "D" "e" word)) (drop 1 (Py.split line)).

(** A data line of the Hessian block: at least two words, a [D] in the
    second, and a row number as first. *)
Definition row_number (line : string) : option Z :=
  match Py.split line with
  | w0 :: w1 :: _ =>
      if Py.contains "D" w1
      then match Py.int w0 with Ok r => Some r | Raise _ => None end
      else None
  | _ => None
  end.

(** Data lines that each start a new row when [len] rows are there:
    the row number of a line is at least the number of rows before it. *)
Fixpoint new_rows (len : nat) (lines : list string) : bool :=
  match lines with
  | [] => true
  | line :: lines' =>
      match row_number line with
      | Some r => (Z.of_nat len <=? r) && new_rows (S len) lines'
      | None => false
      end
  end.

(** The words after the label, for the lines that start with it. *)
Definition frequency_tokens (pattern : string) (lines : list string)
  : list string :=
  concat (map (fun line =>
                 if String.eqb (Py.slice line None (Some (Py.len pattern)))
                      pattern
                 then Py.split (Py.slice line (Some (Py.len pattern)) None)
                 else [])
              lines).

(** The tokens the mass pattern captures, one for each matching line. *)
Definition mass_tokens (lines : list string) : list string :=
  omap (fun line =>
          match Re.search MassParser.re line with
          | Some ((_, w) :: _) => Some w
          | _ => None
          end)
       lines.

(** ** Lines of a trajectory *)

(** The six numbers [_read_frame] takes from a line: the words 1 to 3
    for a row of [pos], the words 4 to 6 for a row of [vel]. *)
Definition atom_values {Float : Type} {FM : FloatModel Float} (line : string)
  : result (list Float * list Float) :=
  let word k := w ← Py.index (Py.split line) k; float w in
  x ← word 1; y ← word 2; z ← word 3;
  vx ← word 4; vy ← word 5; vz ← word 6;
  Ok ([x; y; z], [vx; vy; vz]).

(** * Proof automation *)

(** Splits the description of one step of the trace and settles which
    calls of a short trace are [Collect]. *)
Ltac trace_case :=
  split; [reflexivity |];
  split; [reflexivity |];
  split; [intros ? Hcall; simpl in Hcall;
          repeat (destruct Hcall as [Hcall | Hcall]; simplify_eq);
          try done
         | split; try done].

(** * Properties *)

(** ** Python strings and the result monad *)

Lemma slice_head (s : string) (k : nat) :
  Py.slice s None (Some (Z.of_nat k))
  = substring 0 (Nat.min k (String.length s)) s.
Proof.
  unfold Py.slice, Py.clamp.
  destruct (Z.ltb_spec (Z.of_nat k) 0) as [Hneg | _]; [lia |].
  rewrite Z.sub_0_r. simpl (Z.to_nat 0).
  f_equal. lia.
Qed.

(** The first two characters of a line decide which marker it can be. *)
Lemma slice_head_two (a b : ascii) (rest : string) (k : nat) :
  Py.slice (String a (String b rest)) None (Some (Z.of_nat (S (S k))))
  = String a (String b (substring 0 (Nat.min k (String.length rest)) rest)).
Proof. rewrite slice_head. reflexivity. Qed.

Lemma bind_ok {A B : Type} (m : result A) (k : A -> result B) (b : B) :
  m ≫= k = Ok b -> exists a, m = Ok a /\ k a = Ok b.
Proof. destruct m as [a | e]; [eauto | discriminate]. Qed.

Lemma ok_bind {A B : Type} (a : A) (k : A -> result B) :
  Ok a ≫= k = k a.
Proof. reflexivity. Qed.

Lemma bind_assoc {A B D : Type} (m : result A) (k : A -> result B)
  (h : B -> result D) :
  (m ≫= k) ≫= h = m ≫= fun a => k a ≫= h.
Proof. by destruct m. Qed.

Lemma foldM_cons {A S : Type} (body : A -> S -> result S) (x : A)
  (xs : list A) (s : S) :
  foldM body (x :: xs) s = body x s ≫= foldM body xs.
Proof. reflexivity. Qed.

Lemma foldM_app {A S : Type} (body : A -> S -> result S) (xs ys : list A) (s : S) :
  foldM body (xs ++ ys) s = foldM body xs s ≫= foldM body ys.
Proof.
  revert s. induction xs as [| x xs IH]; intros s; simpl; [reflexivity |].
  destruct (body x s) as [s1 | e]; simpl; [apply IH | reflexivity].
Qed.

Lemma mapM_app {A B : Type} (f : A -> result B) (xs ys : list A) :
  mapM f (xs ++ ys)
  = mapM f xs ≫= fun a => mapM f ys ≫= fun b => Ok (a ++ b).
Proof.
  induction xs as [| x xs IH]; simpl.
  { by destruct (mapM f ys). }
  destruct (f x) as [y | e]; [| reflexivity]. rewrite !ok_bind, IH.
  destruct (mapM f xs) as [a | e]; [| reflexivity]. rewrite !ok_bind.
  by destruct (mapM f ys).
Qed.

Lemma mapM_raise {A B : Type} (f : A -> result B) (xs : list A) (e : exn) :
  mapM f xs = Raise e -> exists x, x ∈ xs /\ f x = Raise e.
Proof.
  induction xs as [| x xs IH]; simpl; [discriminate |].
  destruct (f x) as [y | e'] eqn:E.
  - rewrite ok_bind. destruct (mapM f xs) as [ys | e'']; [discriminate |].
    intros [= ->]. destruct IH as (x' & Hin & Hx'); [done |].
    exists x'. split; [by right | done].
  - intros [= ->]. exists x. split; [by left | done].
Qed.

(** ** The section tracker *)

Section tracker.
Context {St : Type} {C : Collector St}.
Implicit Types (cfg : config) (self : parser St) (line lnk : string).

Lemma leave_marker_head lnk line :
  LinkParser.leave_marker lnk line = true ->
  exists rest, line = String " " (String "L" rest).
Proof.
  unfold LinkParser.leave_marker. intros H.
  apply andb_prop in H as [H _]. apply String.eqb_eq in H.
  destruct line as [| a [| b rest]]; try discriminate H.
  change 11 with (Z.of_nat 11) in H. rewrite slice_head_two in H.
  injection H as -> -> _. eauto.
Qed.

Lemma enter_marker_head lnk line :
  LinkParser.enter_marker lnk line = true ->
  exists rest, line = String " " (String "(" rest).
Proof.
  unfold LinkParser.enter_marker. intros H.
  apply andb_prop in H as [H _]. apply String.eqb_eq in H.
  destruct line as [| a [| b rest]]; try discriminate H.
  change 8 with (Z.of_nat 8) in H. rewrite slice_head_two in H.
  injection H as -> -> _. eauto.
Qed.

Lemma leave_not_enter lnk line :
  LinkParser.leave_marker lnk line = true ->
  LinkParser.enter_marker lnk line = false.
Proof.
  intros [rest ->]%leave_marker_head.
  destruct (LinkParser.enter_marker lnk _) eqn:E; [| reflexivity].
  apply enter_marker_head in E as [rest' E]. discriminate E.
Qed.

(** A line that carries the exit marker only clears [in_link]. *)
Lemma parse_leave cfg self line :
  LinkParser.leave_marker (link cfg) line = true ->
  LinkParser.parse cfg self line = Ok (set_in_link false self).
Proof.
  intros H. unfold LinkParser.parse.
  rewrite H, (leave_not_enter _ _ H). reflexivity.
Qed.

(** Outside the link, a line can only set [in_link]. *)
Lemma parse_outside cfg self line :
  in_link self = false ->
  LinkParser.parse cfg self line
  = Ok (if LinkParser.enter_marker (link cfg) line
        then set_in_link true self else self).
Proof.
  destruct self as [i c s]. simpl. intros ->. unfold LinkParser.parse.
  destruct (LinkParser.leave_marker _ _); reflexivity.
Qed.

(** The window never touches [in_link]. *)
Lemma window_keeps_in_link cfg self self' line :
  MultiLineParser.parse cfg self line = Ok self' ->
  in_link self' = in_link self.
Proof.
  unfold MultiLineParser.parse, set_acc. intros H.
  repeat case_match; simplify_eq; try reflexivity.
  all: apply bind_ok in H as (s & _ & H); by simplify_eq.
Qed.

Lemma set_in_link_id self :
  set_in_link (in_link self) self = self.
Proof. by destruct self. Qed.

(** Inside the link, a line that is no exit marker goes to the window. *)
Lemma parse_inside cfg self line :
  in_link self = true ->
  LinkParser.leave_marker (link cfg) line = false ->
  LinkParser.parse cfg self line = MultiLineParser.parse cfg self line.
Proof.
  intros Hin Hleave. unfold LinkParser.parse. rewrite Hleave, Hin.
  destruct (MultiLineParser.parse cfg self line) as [self' | e] eqn:E;
    [| reflexivity].
  apply window_keeps_in_link in E. simpl.
  destruct (LinkParser.enter_marker _ _); [| reflexivity].
  by rewrite <- Hin, <- E, set_in_link_id.
Qed.

End tracker.

(** ** Which lines reach the collector *)

Section tracing.
Implicit Types (cfg : config) (self : parser (list Trace.call)) (line : string).

(** What one line adds to the trace. *)
Lemma parse_trace cfg self line :
  exists calls self',
    LinkParser.parse cfg self line = Ok self'
    /\ acc self' = acc self ++ calls
    /\ (forall l, In (Trace.Collect l) calls ->
          l = line
          /\ in_link self = true
          /\ LinkParser.leave_marker (link cfg) line = false
          /\ MultiLineParser.reports_collecting cfg self = true)
    /\ (LinkParser.leave_marker (link cfg) line = true -> calls = [])
    /\ (in_link self = false -> calls = []).
Proof.
  destruct (LinkParser.leave_marker (link cfg) line) eqn:Hleave.
  { exists [], (set_in_link false self).
    rewrite parse_leave, app_nil_r by done. by trace_case. }
  destruct (in_link self) eqn:Hin.
  2: { rewrite parse_outside by done.
       destruct (LinkParser.enter_marker _ _);
         eexists [], _; rewrite app_nil_r; by trace_case. }
  rewrite parse_inside by done.
  unfold MultiLineParser.parse, MultiLineParser.reports_collecting.
  rewrite Hin. destruct self as [i c t]. simpl in *.
  destruct (activator cfg) as [act |].
  - destruct c.
    + destruct (MultiLineParser.matches _ _).
      * eexists [Trace.StopCollecting], _. by trace_case.
      * eexists [Trace.Collect line], _. by trace_case.
    + destruct (_ && _).
      * eexists [Trace.StartCollecting], _. by trace_case.
      * eexists [], _. rewrite app_nil_r. by trace_case.
  - destruct (MultiLineParser.gate_open cfg).
    + eexists [Trace.Collect line], _. by trace_case.
    + eexists [], _. rewrite app_nil_r. by trace_case.
Qed.

End tracing.



(** The trace stands for every collector: the callbacks a line triggers
    do not depend on the accumulator, so running a parser on a line is
    replaying the traced calls on its accumulator. *)
Lemma parse_replay {St : Type} {C : Collector St} (cfg : config)
  (i c i' c' : bool) (t calls : list Trace.call) (s : St) (line : string) :
  LinkParser.parse cfg (Parser i c t) line = Ok (Parser i' c' (t ++ calls)) ->
  LinkParser.parse cfg (Parser i c s) line
  = Trace.replay calls s ≫= fun s' => Ok (Parser i' c' s').
Proof.
  assert (Hnil : forall l : list Trace.call, t = t ++ l -> l = []).
  { intros l Hl. apply (app_inv_head t). by rewrite app_nil_r. }
  unfold LinkParser.parse, MultiLineParser.parse, set_in_link, set_acc.
  simpl.
  destruct (LinkParser.leave_marker _ _), i, c,
    (MultiLineParser.matches (deactivator cfg) line),
    (MultiLineParser.matches (activator cfg) line
     && MultiLineParser.gate_open cfg),
    (MultiLineParser.gate_open cfg), (LinkParser.enter_marker _ _),
    (activator cfg);
    simpl; intros [= <- <- Hc];
    first [apply Hnil in Hc | apply app_inv_head in Hc]; subst calls;
    unfold Trace.replay; simpl;
    first [reflexivity
          | by destruct (collect line s)
          | by destruct (stop_collecting s)].
Qed.

(** C1 (as amended): a line reaches [collect] only when, at the check,
    the tracker is inside and the window reports [collecting]; a line
    with the exit marker triggers no callback at all; and a line with
    the entry marker triggers none when the tracker was outside before
    it.  (Inside, such a line is an ordinary line of the section.) *)
Theorem collect_only_inside_open_window
  (cfg : config) (self : parser (list Trace.call)) (line : string) :
  exists calls self',
    LinkParser.parse cfg self line = Ok self'
    /\ acc self' = acc self ++ calls
    /\ (forall l, In (Trace.Collect l) calls -> l = line)
    /\ (In (Trace.Collect line) calls ->
        in_link self = true
        /\ LinkParser.leave_marker (link cfg) line = false
        /\ MultiLineParser.reports_collecting cfg self = true)
    /\ (LinkParser.leave_marker (link cfg) line = true -> calls = [])
    /\ (LinkParser.enter_marker (link cfg) line = true ->
        in_link self = false -> calls = []).
Proof.
  destruct (parse_trace cfg self line)
    as (calls & self' & Hparse & Hacc & Hcollect & Hleave & Hout).
  exists calls, self'. repeat (split; [assumption |]).
  split; [| split; [| split; [assumption | auto]]].
  - intros l Hl. by destruct (Hcollect l Hl).
  - intros Hl. by destruct (Hcollect line Hl) as (_ & ? & ? & ?).
Qed.

Lemma collect_only_inside_open_window_witness :
  exists calls self',
    LinkParser.parse (SCFParser None None None)
      (Parser false false []) enter_502 = Ok self'
    /\ acc self' = [] ++ calls
    /\ calls = [].
Proof.
  destruct (collect_only_inside_open_window (SCFParser None None None)
              (Parser false false []) enter_502)
    as (calls & self' & Hparse & Hacc & _ & _ & _ & Henter).
  exists calls, self'. repeat (split; [assumption |]).
  apply Henter; vm_compute; reflexivity.
Defined.

(** C1 (the claim as stated fails): a line with the entry marker that
    arrives while the tracker is already inside is passed to [collect],
    and the energy it spells ends up in the result. *)
Lemma entry_marker_line_collected_inside :
  LinkParser.enter_marker "502" enter_502_with_energy = true
  /\ LinkParser.parse_lines (SCFParser None None None)
       [enter_502; enter_502_with_energy] LinkParser.reset
     = Ok (Parser true false [Trace.Collect enter_502_with_energy])
  /\ LinkParser.parse_lines (EnergyParser.config None)
       [enter_502; enter_502_with_energy]
       (LinkParser.reset (C := EnergyParser.collector (FM := Decimal.model)))
     = Ok (Parser true false [(-3 # 2)%Q]).
Proof. vm_compute. repeat split; reflexivity. Qed.

(** ** The end-to-end energy example *)

(** C2 (as amended): with the markers at the source's columns, the
    energy parser returns the value of the one energy line, and the
    values of both lines, in order, when the block is repeated. *)
Theorem energy_example {Float : Type} {FM : FloatModel Float} (v1 v2 : Float) :
  float "-1.234567" = Ok v1 ->
  float "-1.300000" = Ok v2 ->
  LinkParser.parse_lines (EnergyParser.config None)
    (scf_block "-1.234567") LinkParser.reset
  = Ok (Parser false false [v1])
  /\ LinkParser.parse_lines (EnergyParser.config None)
       (scf_block "-1.234567" ++ scf_block "-1.300000") LinkParser.reset
     = Ok (Parser false false [v1; v2]).
Proof.
  destruct FM as [fl fa z0]. simpl. intros H1 H2.
  split; vm_compute; rewrite ?H1; vm_compute; rewrite ?H2; reflexivity.
Qed.

Lemma energy_example_witness :
  LinkParser.parse_lines (EnergyParser.config None)
    (scf_block "-1.234567")
    (LinkParser.reset (C := EnergyParser.collector (FM := Decimal.model)))
  = Ok (Parser false false [(-1234567 # 1000000)%Q])
  /\ LinkParser.parse_lines (EnergyParser.config None)
       (scf_block "-1.234567" ++ scf_block "-1.300000")
       (LinkParser.reset (C := EnergyParser.collector (FM := Decimal.model)))
     = Ok (Parser false false [(-1234567 # 1000000)%Q; (-13 # 10)%Q]).
Proof.
  apply (energy_example (FM := Decimal.model)); vm_compute; reflexivity.
Defined.

(** C2 (the claim as stated fails): in the lines as the spec spells
    them neither marker stands at its column, the tracker never gets
    inside, and the result is empty. *)
Lemma energy_example_as_spelled_is_empty :
  LinkParser.enter_marker "502" " (Enter l502)" = false
  /\ LinkParser.leave_marker "502" " Leave Link502" = false
  /\ LinkParser.parse_lines (EnergyParser.config None)
       (scf_block_as_spelled "-1.234567")
       (LinkParser.reset (C := EnergyParser.collector (FM := Decimal.model)))
     = Ok (Parser false false []).
Proof. vm_compute. repeat split; reflexivity. Qed.

(** ** Logs made of entry/exit cycles *)

Section cycles.
Context {St : Type} {C : Collector St}.
Implicit Types (cfg : config) (self : parser St) (line : string).

Lemma parse_lines_app cfg (xs ys : list string) self :
  LinkParser.parse_lines cfg (xs ++ ys) self
  = LinkParser.parse_lines cfg xs self ≫= LinkParser.parse_lines cfg ys.
Proof. apply foldM_app. Qed.

Lemma parse_lines_cons cfg line (lines : list string) self :
  LinkParser.parse_lines cfg (line :: lines) self
  = LinkParser.parse cfg self line ≫= LinkParser.parse_lines cfg lines.
Proof. reflexivity. Qed.

(** Between two passes nothing changes. *)
Lemma parse_lines_outside cfg (lines : list string) self :
  in_link self = false ->
  outside_ok (link cfg) lines = true ->
  LinkParser.parse_lines cfg lines self = Ok self.
Proof.
  intros Hout. induction lines as [| l lines IH]; [reflexivity |].
  simpl. intros [Hl Hlines]%andb_prop.
  rewrite parse_lines_cons, parse_outside by done.
  apply negb_true_iff in Hl. rewrite Hl. simpl. by apply IH.
Qed.

(** Without activator and gate, the lines inside all go to [collect]. *)
Lemma parse_lines_inside cfg (lines : list string) self :
  activator cfg = None ->
  MultiLineParser.gate_open cfg = true ->
  in_link self = true ->
  inside_ok (link cfg) lines = true ->
  LinkParser.parse_lines cfg lines self
  = foldM collect lines (acc self) ≫= fun s => Ok (set_acc s self).
Proof.
  intros Hact Hgate. revert self.
  induction lines as [| l lines IH]; intros self Hin; simpl.
  { intros _. by destruct self. }
  intros [Hl Hlines]%andb_prop. apply negb_true_iff in Hl.
  rewrite parse_lines_cons, parse_inside by done.
  unfold MultiLineParser.parse. rewrite Hact, Hgate.
  destruct (collect l (acc self)) as [s | e]; [| reflexivity].
  simpl. rewrite IH by done. simpl.
  by destruct (foldM collect lines s).
Qed.

Lemma parse_lines_cycle cfg (c : cycle) self :
  activator cfg = None ->
  MultiLineParser.gate_open cfg = true ->
  in_link self = false ->
  cycle_ok (link cfg) c = true ->
  LinkParser.parse_lines cfg (cycle_lines c) self
  = foldM collect (cycle_body c) (acc self) ≫= fun s => Ok (set_acc s self).
Proof.
  intros Hact Hgate Hout.
  unfold cycle_ok. intros [[[He Hb]%andb_prop Hl]%andb_prop Ha]%andb_prop.
  unfold cycle_lines. destruct self as [i w s0]. simpl in Hout. subst i.
  rewrite parse_lines_cons, parse_outside, He, ok_bind by done.
  rewrite parse_lines_app, parse_lines_inside by done.
  unfold set_in_link, set_acc. simpl.
  destruct (foldM collect (cycle_body c) s0) as [s | e]; [| reflexivity].
  rewrite !ok_bind, parse_lines_cons, parse_leave, ok_bind by done.
  by rewrite parse_lines_outside.
Qed.

Lemma parse_lines_cycles cfg (cycles : list cycle) self :
  activator cfg = None ->
  MultiLineParser.gate_open cfg = true ->
  in_link self = false ->
  forallb (cycle_ok (link cfg)) cycles = true ->
  LinkParser.parse_lines cfg (concat (map cycle_lines cycles)) self
  = foldM collect (concat (map cycle_body cycles)) (acc self)
    ≫= fun s => Ok (set_acc s self).
Proof.
  intros Hact Hgate. revert self.
  induction cycles as [| c cycles IH]; intros self Hout;
    cbn [map concat forallb].
  { intros _. by destruct self. }
  intros [Hc Hcycles]%andb_prop.
  rewrite parse_lines_app, parse_lines_cycle, foldM_app by done.
  destruct (foldM collect (cycle_body c) (acc self)) as [s | e];
    [| reflexivity].
  rewrite !ok_bind, IH by (by destruct self). by destruct self.
Qed.

End cycles.

(** ** The patterns of the source *)

(** Every pattern of [file_parsers.py] lies in the fragment [Re.compile]
    reads, so [Re.compiled] is the pattern itself. *)
Lemma patterns_compile :
  Forall (fun p => Re.compile p = Some (Re.compiled p))
    [ "Force constants in Cartesian coordinates:";
      "Force constants in internal coordinates:";
      "Temperature\s+\S+\s+Kelvin.\s+Pressure\s+\S+\s+Atm.";
      "Molecular mass:\s+\S+\s+amu.";
      "Atom\s+\d+\s+has atomic number\s+\d+\s+and mass\s+(?P<mass>\S+)";
      "Input orientation:";
      "Distance matrix \(angstroms\):";
      "\d+\s+\d+\s+\d+\s+(?P<x>\S+)\s+(?P<y>\S+)\s+(?P<z>\S+)";
      "SCF Done:\s+E\S+\s+=\s+(?P<energy>\S+)\s+A.U." ].
Proof. repeat constructor. Qed.

(** ** Named groups of a match *)

Lemma plus_greedy_rest (k : Re.cls) (rest : string -> option Re.groups)
  (s w : string) (g : Re.groups) :
  Re.plus_greedy k rest s = Some (w, g) -> exists s', rest s' = Some g.
Proof.
  revert w. induction s as [| a s IH]; intros w; simpl; [discriminate |].
  destruct (Re.cls_match k a); [| discriminate].
  destruct (Re.plus_greedy k rest s) as [[w' g'] |].
  - intros [= <- <-]. by eapply IH.
  - destruct (rest s) eqn:E; [| discriminate]. intros [= <- <-]. eauto.
Qed.

(** A match binds exactly the groups of its pattern. *)
Lemma match_here_names (r : Re.regex) (s : string) (g : Re.groups) :
  Re.match_here r s = Some g -> map fst g = group_names r.
Proof.
  revert s g. induction r as [| [k | k | name k] r IH]; intros s g; simpl.
  - by intros [= <-].
  - destruct s as [| a s]; [discriminate |].
    destruct (Re.cls_match k a); [apply IH | discriminate].
  - destruct (Re.plus_greedy _ _ _) as [[w g'] |] eqn:E; [| discriminate].
    intros [= <-]. apply plus_greedy_rest in E as [s' E]. by eapply IH.
  - destruct (Re.plus_greedy _ _ _) as [[w g'] |] eqn:E; [| discriminate].
    intros [= <-]. apply plus_greedy_rest in E as [s' E].
    simpl. f_equal. by eapply IH.
Qed.

Lemma search_names (r : Re.regex) (s : string) (g : Re.groups) :
  Re.search r s = Some g -> map fst g = group_names r.
Proof.
  induction s as [| a s IH]; simpl;
    destruct (Re.match_here r _) eqn:E; try discriminate.
  - intros [= <-]. by eapply match_here_names.
  - intros [= <-]. by eapply match_here_names.
  - apply IH.
Qed.

(** ** The energy series *)

Section energies.
Context {Float : Type} {FM : FloatModel Float}.

(** A match of the energy pattern holds the one group [energy]. *)
Lemma energy_match (line : string) (g : Re.groups) :
  Re.search EnergyParser.re line = Some g ->
  exists w, g = [("energy", w)].
Proof.
  intros H%search_names. change (group_names _) with ["energy"] in H.
  destruct g as [| [n w] [| ? ?]]; simplify_eq/=. eauto.
Qed.

Lemma energy_tokens_cons (line : string) (lines : list string) :
  energy_tokens (line :: lines)
  = match Re.search EnergyParser.re line with
    | Some ((_, w) :: _) => w :: energy_tokens lines
    | _ => energy_tokens lines
    end.
Proof.
  unfold energy_tokens. simpl.
  by destruct (Re.search EnergyParser.re line) as [[| [? ?] ?] |].
Qed.

(** Collecting lines appends the values of the captured tokens. *)
Lemma energy_collect_all (lines : list string) (s : EnergyParser.state Float) :
  foldM EnergyParser.collect lines s
  = mapM float (energy_tokens lines) ≫= fun vs => Ok (s ++ vs).
Proof.
  revert s. induction lines as [| l lines IH]; intros s.
  { simpl. by rewrite app_nil_r. }
  rewrite foldM_cons, energy_tokens_cons. unfold EnergyParser.collect.
  destruct (Re.search EnergyParser.re l) as [g |] eqn:E.
  - apply energy_match in E as [w ->]. cbn [Re.group mapM].
    change (String.eqb "energy" "energy") with true. cbn iota.
    rewrite ok_bind. destruct (float w) as [v | e]; [| reflexivity].
    rewrite !ok_bind, IH.
    destruct (mapM float (energy_tokens lines)) as [vs | e]; [| reflexivity].
    rewrite !ok_bind. by rewrite <- app_assoc.
  - rewrite ok_bind. apply IH.
Qed.

End energies.

(** C3: on a log of entry/exit cycles of link 502 (no entry line
    between two cycles, no exit line inside one), the energy parser,
    which has no activator, accumulates the values of exactly the
    tokens its pattern captures in the lines inside the cycles, cycle
    after cycle and line after line; the lines before, between and
    after the cycles contribute nothing.  A token [float] rejects
    aborts the pass with [float]'s exception. *)
Theorem energies_of_all_cycles {Float : Type} {FM : FloatModel Float}
  (before : list string) (cycles : list cycle) :
  outside_ok "502" before = true ->
  forallb (cycle_ok "502") cycles = true ->
  LinkParser.parse_lines (EnergyParser.config None)
    (cycles_log before cycles) LinkParser.reset
  = mapM float (energy_tokens (concat (map cycle_body cycles)))
    ≫= fun energies => Ok (Parser false false (EnergyParser.result energies)).
Proof.
  intros Hbefore Hcycles. unfold cycles_log.
  rewrite parse_lines_app, parse_lines_outside, ok_bind by done.
  rewrite parse_lines_cycles by done.
  change (acc LinkParser.reset) with (@nil Float).
  change (@collect _ EnergyParser.collector) with EnergyParser.collect.
  rewrite energy_collect_all, bind_assoc.
  by destruct (mapM float _).
Qed.

Lemma energies_of_all_cycles_witness :
  outside_ok "502" two_cycles_before = true
  /\ forallb (cycle_ok "502") two_cycles = true
  /\ LinkParser.parse_lines (EnergyParser.config None)
       (cycles_log two_cycles_before two_cycles)
       (LinkParser.reset (C := EnergyParser.collector (FM := Decimal.model)))
     = Ok (Parser false false [(-3 # 2)%Q; (-5 # 4)%Q; (-5 # 2)%Q]).
Proof.
  split; [vm_compute; reflexivity |].
  split; [vm_compute; reflexivity |].
  etrans.
  - apply (energies_of_all_cycles (FM := Decimal.model)
             two_cycles_before two_cycles);
      vm_compute; reflexivity.
  - vm_compute. reflexivity.
Defined.

(** ** Lines a collector does not recognise *)

Section unrecognised.
Context {Float : Type} {FM : FloatModel Float}.

(** The four collectors that test the line before they touch it leave
    the accumulator alone when the test fails. *)
Lemma energy_ignores (line : string) (self : EnergyParser.state Float) :
  Re.search EnergyParser.re line = None ->
  EnergyParser.collect line self = Ok self.
Proof. unfold EnergyParser.collect. by intros ->. Qed.

Lemma mass_ignores (line : string) (self : MassParser.state Float) :
  Re.search MassParser.re line = None ->
  MassParser.collect line self = Ok self.
Proof. unfold MassParser.collect. by intros ->. Qed.

Lemma coordinates_ignores (line : string) (self : CoordinatesParser.state Float) :
  Re.search CoordinatesParser.re line = None ->
  CoordinatesParser.collect line self = Ok self.
Proof. unfold CoordinatesParser.collect. by intros ->. Qed.

Lemma frequencies_ignores (pattern line : string) (self : FrequenciesParser.state Float) :
  Py.slice line None (Some (Py.len pattern)) ≠ pattern ->
  FrequenciesParser.collect pattern line self = Ok self.
Proof.
  unfold FrequenciesParser.collect. intros H%String.eqb_neq. by rewrite H.
Qed.

Lemma index_second {A : Type} (x0 x1 : A) (xs : list A) :
  Py.index (x0 :: x1 :: xs) 1 = Ok x1.
Proof.
  unfold Py.index. cbn [length]. change (1 <? 0) with false. cbn iota.
  destruct (Z.leb_spec (Z.of_nat (S (S (length xs)))) 1); [lia |].
  reflexivity.
Qed.

(** A line of the Hessian block whose second token has no [D] is
    ignored as well, provided it has a second token. *)
Lemma hessian_ignores (line w0 w1 : string) (words : list string)
  (self : HessianParser.state Float) :
  Py.split line = w0 :: w1 :: words ->
  Py.contains "D" w1 = false ->
  HessianParser.collect line self = Ok self.
Proof.
  unfold HessianParser.collect. intros -> H.
  by rewrite index_second, ok_bind, H.
Qed.

End unrecognised.

(** C5 (the code fails the claim): [HessianParser.collect] reads
    [words[1]] before it looks at the shape of the line, so a blank
    line, and the header of a block with a single column, raise
    [IndexError] instead of being ignored. *)
Theorem hessian_collect_raises_on_short_line {Float : Type} {FM : FloatModel Float}
  (self : HessianParser.state Float) :
  HessianParser.collect "" self = Raise IndexError
  /\ HessianParser.collect "                6 " self = Raise IndexError.
Proof. split; reflexivity. Qed.

(** C4 (the code fails the claim): the second line of the last row has
    [row_number = len(self.hessian)], which [collect] takes for a new
    row.  For the nine rows above the finalized array has ten rows, its
    entry (9,9) is 0 and not the parsed 99, and the columns 6 to 9 of
    row 9 sit in a tenth row. *)
Theorem hessian_last_row_continuation_starts_new_row :
  episode (C := HessianParser.collector (FM := Decimal.model))
    hessian_block HessianParser.reset
  = Ok (HessianParser.Array hessian_block_array)
  /\ length hessian_block_array = 10%nat
  /\ Numeric.get hessian_block_array 8 8 = Some 0%Q
  /\ Numeric.get hessian_block_array 9 0 = Some 96%Q.
Proof. vm_compute. repeat split; reflexivity. Qed.

(** The smallest case: a second row given on two lines. *)
Lemma hessian_split_second_row :
  episode (C := HessianParser.collector (FM := Decimal.model))
    [ "1 0.1D+01"; "2 0.2D+01"; "2 0.3D+01" ] HessianParser.reset
  = Ok (HessianParser.Array [ [1; 2; 3]; [2; 0; 0]; [3; 0; 0] ]%Q).
Proof. vm_compute. reflexivity. Qed.

(** ** Episodes and the accumulator *)

Section coordinates.
Context {Float : Type} {FM : FloatModel Float}.
Implicit Types (self : CoordinatesParser.state Float) (line : string).

Lemma geometry_cons (line : string) (data : list string) :
  geometry (line :: data)
  = match Re.search CoordinatesParser.re line with
    | Some m =>
        row_of_match m ≫= fun row =>
        geometry data ≫= fun rows => Ok (row :: rows)
    | None => geometry data
    end.
Proof.
  unfold geometry. simpl. by destruct (Re.search CoordinatesParser.re line).
Qed.

Lemma coordinates_collect_match (line : string) (m : Re.groups)
  (done : list (Numeric.matrix Float)) (current : list (list Float)) :
  Re.search CoordinatesParser.re line = Some m ->
  CoordinatesParser.collect line (CoordinatesParser.State done (Some current))
  = row_of_match m ≫= fun row =>
      Ok (CoordinatesParser.State done (Some (current ++ [row]))).
Proof.
  unfold CoordinatesParser.collect, row_of_match. intros ->. simpl.
  destruct (CoordinatesParser.coordinate m "x") as [x | e]; [| reflexivity].
  destruct (CoordinatesParser.coordinate m "y") as [y | e]; [| reflexivity].
  by destruct (CoordinatesParser.coordinate m "z").
Qed.

Lemma coordinates_collect_all (data : list string)
  (done : list (Numeric.matrix Float)) (current : list (list Float)) :
  foldM CoordinatesParser.collect data
    (CoordinatesParser.State done (Some current))
  = geometry data ≫= fun rows =>
      Ok (CoordinatesParser.State done (Some (current ++ rows))).
Proof.
  revert current. induction data as [| l data IH]; intros current.
  { simpl. by rewrite app_nil_r. }
  rewrite foldM_cons, geometry_cons.
  destruct (Re.search CoordinatesParser.re l) as [m |] eqn:E.
  - rewrite (coordinates_collect_match _ _ _ _ E).
    destruct (row_of_match m) as [row | e]; [| reflexivity].
    rewrite !ok_bind, IH.
    destruct (geometry data) as [rows | e]; [| reflexivity].
    rewrite !ok_bind. by rewrite <- app_assoc.
  - rewrite coordinates_ignores, ok_bind by done. apply IH.
Qed.

(** An episode appends its array to the arrays of the episodes before. *)
Lemma coordinates_episode (data : list string) self :
  episode data self
  = geometry data ≫= fun a =>
      Ok (CoordinatesParser.State
            (CoordinatesParser.coordinates self ++ [a]) (Some a)).
Proof.
  unfold episode. cbn [start_collecting CoordinatesParser.collector].
  unfold CoordinatesParser.start_collecting.
  change (@collect _ CoordinatesParser.collector)
    with CoordinatesParser.collect.
  rewrite coordinates_collect_all, bind_assoc.
  by destruct (geometry data).
Qed.

(** Every row of an episode's array has three entries. *)
Lemma geometry_rows (data : list string) (a : Numeric.matrix Float) :
  geometry data = Ok a ->
  Forall (fun row => length row = 3%nat) a.
Proof.
  unfold geometry. generalize (omap (Re.search CoordinatesParser.re) data).
  intros ms. revert a. induction ms as [| m ms IH]; intros a; simpl.
  { intros [= <-]. constructor. }
  intros (row & Hrow & H)%bind_ok.
  apply bind_ok in H as (rows & Hrows & [= <-]).
  constructor; [| by apply IH].
  unfold row_of_match in Hrow.
  apply bind_ok in Hrow as (x & _ & Hrow).
  apply bind_ok in Hrow as (y & _ & Hrow).
  apply bind_ok in Hrow as (z & _ & [= <-]). reflexivity.
Qed.

End coordinates.

(** C6 (as amended): the coordinates parser keeps the arrays of the
    earlier episodes, a finished episode adds one array at the end of
    the sequence [result] returns.  The Hessian and the mass parser
    start every episode on an empty accumulator, so their result after
    an episode does not depend on what was accumulated before. *)
Theorem episodes_and_earlier_results {Float : Type} {FM : FloatModel Float} (data : list string) :
  (forall self self' : (CoordinatesParser.state Float),
     episode data self = Ok self' ->
     exists a,
       CoordinatesParser.result self' = CoordinatesParser.result self ++ [a])
  /\ (forall self1 self2 : (HessianParser.state Float),
        episode data self1 = episode data self2)
  /\ (forall self1 self2 : (MassParser.state Float),
        episode data self1 = episode data self2).
Proof.
  split; [| split; reflexivity].
  intros self self'. rewrite coordinates_episode.
  intros (a & _ & [= <-])%bind_ok. by exists a.
Qed.

Lemma episodes_and_earlier_results_witness :
  episode geometry_block_2
    (CoordinatesParser.State [geometry_1] (Some geometry_1))
  = Ok (CoordinatesParser.State [geometry_1; geometry_2] (Some geometry_2))
  /\ exists a,
       CoordinatesParser.result
         (CoordinatesParser.State [geometry_1; geometry_2] (Some geometry_2))
       = CoordinatesParser.result
           (CoordinatesParser.State [geometry_1] (Some geometry_1))
         ++ [a].
Proof.
  split; [vm_compute; reflexivity |].
  apply (proj1 (episodes_and_earlier_results (FM := Decimal.model)
                  geometry_block_2)
           (CoordinatesParser.State [geometry_1] (Some geometry_1))).
  vm_compute. reflexivity.
Defined.

(** C6 (the claim as stated fails): a second episode of the Hessian
    parser, and of the mass parser, leaves nothing of the first. *)
Lemma second_episode_replaces_first :
  episode (C := HessianParser.collector (FM := Decimal.model))
    ["      1  0.11D+02"] HessianParser.reset
  = Ok (HessianParser.Array [[11%Q]])
  /\ episode (C := HessianParser.collector (FM := Decimal.model))
       ["      1  0.55D+02"] (HessianParser.Array [[11%Q]])
     = Ok (HessianParser.Array [[55%Q]])
  /\ episode (C := MassParser.collector (FM := Decimal.model))
       [" Atom  1 has atomic number  1 and mass   1.5"] MassParser.reset
     = Ok (MassParser.Array [(3 # 2)%Q])
  /\ episode (C := MassParser.collector (FM := Decimal.model))
       [" Atom  1 has atomic number  8 and mass   16.5"]
       (MassParser.Array [(3 # 2)%Q])
     = Ok (MassParser.Array [(33 # 2)%Q]).
Proof. vm_compute. repeat split; reflexivity. Qed.

(** ** The window inside the link *)

Section window.
Context {St : Type} {C : Collector St}.
Implicit Types (cfg : config) (self : parser St) (line : string).

(** A closed window stays closed, and the accumulator untouched, on a
    line that has no activator or meets a closed gate. *)
Lemma parse_closed cfg self line :
  collecting self = false ->
  MultiLineParser.gate_open cfg = false
  \/ (is_Some (activator cfg)
      /\ MultiLineParser.matches (activator cfg) line = false) ->
  LinkParser.parse cfg self line
  = Ok (set_in_link (tracker_step (link cfg) (in_link self) line) self).
Proof.
  intros Hc Hidle. unfold tracker_step.
  destruct (LinkParser.leave_marker (link cfg) line) eqn:Hleave.
  { by rewrite parse_leave, (leave_not_enter _ _ Hleave). }
  destruct (in_link self) eqn:Hin.
  2: { rewrite parse_outside by done.
       destruct (LinkParser.enter_marker _ _); [done |].
       by rewrite <- Hin, set_in_link_id. }
  assert (MultiLineParser.parse cfg self line = Ok self) as Hw.
  { unfold MultiLineParser.parse. rewrite Hc.
    destruct Hidle as [Hgate | [[act Hact] Hm]].
    - rewrite Hgate, andb_false_r. by destruct (activator cfg).
    - by rewrite Hact, <- Hact, Hm. }
  unfold LinkParser.parse. rewrite Hleave, Hin, Hw, ok_bind.
  destruct (LinkParser.enter_marker _ _); by rewrite <- Hin, set_in_link_id.
Qed.

Lemma parse_lines_closed cfg (lines : list string) self :
  collecting self = false ->
  MultiLineParser.gate_open cfg = false
  \/ (is_Some (activator cfg) /\ no_activator cfg lines = true) ->
  exists inside,
    LinkParser.parse_lines cfg lines self = Ok (set_in_link inside self).
Proof.
  intros Hc. revert self Hc.
  induction lines as [| l lines IH]; intros self Hc Hidle.
  { exists (in_link self). by rewrite set_in_link_id. }
  rewrite parse_lines_cons, parse_closed, ok_bind; [| done |].
  - destruct (IH (set_in_link (tracker_step (link cfg) (in_link self) l) self))
      as [inside ->]; [done | |].
    + destruct Hidle as [? | [? [_ ?]%andb_prop]]; auto.
    + exists inside. by destruct self.
  - destruct Hidle as [? | [? [Hl _]%andb_prop]]; [auto |].
    right. split; [done |]. by apply negb_true_iff.
Qed.

(** Idle lines inside the link change nothing. *)
Lemma parse_lines_idle cfg (lines : list string) self :
  is_Some (activator cfg) ->
  in_link self = true ->
  collecting self = false ->
  idle_ok cfg lines = true ->
  LinkParser.parse_lines cfg lines self = Ok self.
Proof.
  intros Hact Hin Hc. unfold idle_ok, inside_ok, no_activator.
  induction lines as [| l lines IH]; [reflexivity |].
  cbn [forallb].
  intros [[Hl Hin']%andb_prop [Ha Hno]%andb_prop]%andb_prop.
  apply negb_true_iff in Hl, Ha.
  rewrite parse_lines_cons, parse_closed, ok_bind by auto.
  unfold tracker_step. rewrite Hl, Hin.
  replace (if LinkParser.enter_marker _ _ then true else true) with true
    by by destruct (LinkParser.enter_marker _ _).
  rewrite <- Hin, set_in_link_id. apply IH. by rewrite Hin', Hno.
Qed.

(** The activator line opens the window with [start_collecting]. *)
Lemma parse_activator cfg (s : St) line :
  MultiLineParser.gate_open cfg = true ->
  is_Some (activator cfg) ->
  LinkParser.leave_marker (link cfg) line = false ->
  MultiLineParser.matches (activator cfg) line = true ->
  LinkParser.parse cfg (Parser true false s) line
  = Ok (Parser true true (start_collecting s)).
Proof.
  intros Hgate [act Hact] Hleave Hm. rewrite parse_inside by done.
  unfold MultiLineParser.parse. by rewrite Hact, <- Hact, Hm, Hgate.
Qed.

(** Data lines go to [collect]. *)
Lemma parse_lines_data cfg (lines : list string) (s : St) :
  is_Some (activator cfg) ->
  data_ok cfg lines = true ->
  LinkParser.parse_lines cfg lines (Parser true true s)
  = foldM collect lines s ≫= fun s' => Ok (Parser true true s').
Proof.
  intros [act Hact]. unfold data_ok, inside_ok. revert s.
  induction lines as [| l lines IH]; intros s; [reflexivity |].
  cbn [forallb].
  intros [[Hl Hin']%andb_prop [Hd Hno]%andb_prop]%andb_prop.
  apply negb_true_iff in Hl, Hd.
  rewrite parse_lines_cons, parse_inside, foldM_cons by done.
  unfold MultiLineParser.parse. rewrite Hact. cbn [collecting acc].
  rewrite Hd. unfold set_acc. cbn [in_link collecting acc].
  destruct (collect l s) as [s' | e]; [| reflexivity].
  rewrite !ok_bind. apply IH. by rewrite Hin', Hno.
Qed.

(** The deactivator line closes the window with [stop_collecting]. *)
Lemma parse_deactivator cfg (s : St) line :
  is_Some (activator cfg) ->
  LinkParser.leave_marker (link cfg) line = false ->
  MultiLineParser.matches (deactivator cfg) line = true ->
  LinkParser.parse cfg (Parser true true s) line
  = stop_collecting s ≫= fun s' => Ok (Parser true false s').
Proof.
  intros [act Hact] Hleave Hm. rewrite parse_inside by done.
  unfold MultiLineParser.parse. by rewrite Hact, Hm.
Qed.

(** A pass through the link with one episode runs that episode. *)
Lemma parse_lines_step cfg (st : step) (s : St) :
  MultiLineParser.gate_open cfg = true ->
  is_Some (activator cfg) ->
  step_ok cfg st = true ->
  LinkParser.parse_lines cfg (step_lines st) (Parser false false s)
  = episode (step_data st) s ≫= fun s' => Ok (Parser false false s').
Proof.
  intros Hgate Hact. unfold step_ok.
  intros [[[[[[[[[He Hhead]%andb_prop Hal]%andb_prop Ham]%andb_prop
    Hdata]%andb_prop Hdl]%andb_prop Hdm]%andb_prop Htail]%andb_prop
    Hl]%andb_prop Hafter]%andb_prop.
  apply negb_true_iff in Hal, Hdl.
  unfold step_lines, episode.
  rewrite parse_lines_cons, parse_outside, He, ok_bind by done.
  rewrite parse_lines_app, parse_lines_idle, ok_bind by done.
  rewrite parse_lines_cons. unfold set_in_link. cbn [in_link collecting acc].
  rewrite parse_activator, ok_bind by done.
  rewrite parse_lines_app, parse_lines_data, !bind_assoc by done.
  destruct (foldM collect (step_data st) (start_collecting s)) as [s1 | e];
    [| reflexivity].
  rewrite !ok_bind, parse_lines_cons, parse_deactivator, bind_assoc by done.
  destruct (stop_collecting s1) as [s2 | e]; [| reflexivity].
  rewrite !ok_bind, parse_lines_app, parse_lines_idle, ok_bind by done.
  rewrite parse_lines_cons, parse_leave, ok_bind by done.
  by rewrite parse_lines_outside.
Qed.

Lemma parse_lines_steps cfg (steps : list step) (s : St) :
  MultiLineParser.gate_open cfg = true ->
  is_Some (activator cfg) ->
  forallb (step_ok cfg) steps = true ->
  LinkParser.parse_lines cfg (concat (map step_lines steps))
    (Parser false false s)
  = foldM (fun st => episode (step_data st)) steps s
    ≫= fun s' => Ok (Parser false false s').
Proof.
  intros Hgate Hact. revert s.
  induction steps as [| st steps IH]; intros s; [reflexivity |].
  cbn [map concat forallb]. intros [Hst Hsteps]%andb_prop.
  rewrite parse_lines_app, parse_lines_step, foldM_cons, !bind_assoc by done.
  destruct (episode (step_data st) s) as [s1 | e]; [| reflexivity].
  rewrite !ok_bind. by apply IH.
Qed.

End window.

(** ** Leaving and re-entering the link *)

(** C7 (as amended): the tracker never touches the window.  Whatever
    lies between the exit line and the next entry line, at re-entry the
    window's flag and the accumulator are what they were at exit.  If
    the window was closed at exit (its episode had met the
    deactivator), then after re-entry no callback runs, so no line is
    collected, as long as no line matches the activator. *)
Theorem reentry_keeps_window {St : Type} {C : Collector St}
  (cfg : config) (self : parser St)
  (leave enter : string) (outside inside : list string) :
  LinkParser.leave_marker (link cfg) leave = true ->
  outside_ok (link cfg) outside = true ->
  LinkParser.enter_marker (link cfg) enter = true ->
  LinkParser.parse_lines cfg (leave :: outside ++ [enter]) self
  = Ok (set_in_link true self)
  /\ (is_Some (activator cfg) ->
      collecting self = false ->
      no_activator cfg inside = true ->
      exists i,
        LinkParser.parse_lines cfg (leave :: outside ++ enter :: inside) self
        = Ok (set_in_link i self)).
Proof.
  intros Hleave Houtside Henter.
  assert (LinkParser.parse_lines cfg (leave :: outside ++ [enter]) self
          = Ok (set_in_link true self)) as Hreentry.
  { rewrite parse_lines_cons, parse_leave, ok_bind by done.
    rewrite parse_lines_app, parse_lines_outside, ok_bind by done.
    rewrite parse_lines_cons, parse_outside, Henter by done.
    by destruct self. }
  split; [exact Hreentry |].
  intros Hact Hclosed Hno.
  replace (leave :: outside ++ enter :: inside)
    with ((leave :: outside ++ [enter]) ++ inside)
    by by rewrite <- app_comm_cons, <- app_assoc.
  rewrite parse_lines_app, Hreentry, ok_bind.
  destruct (parse_lines_closed cfg inside (set_in_link true self))
    as [i Hi]; [done | by right |].
  exists i. rewrite Hi. by destruct self.
Qed.

Lemma reentry_keeps_window_witness :
  LinkParser.parse_lines (CoordinatesParser.config None)
    (leave_202 :: [enter_502; leave_502] ++ [enter_202])
    (Parser true false [Trace.StartCollecting; Trace.StopCollecting])
  = Ok (Parser true false [Trace.StartCollecting; Trace.StopCollecting])
  /\ exists i,
       LinkParser.parse_lines (CoordinatesParser.config None)
         (leave_202 :: [enter_502; leave_502]
          ++ enter_202 :: [atom_line_1; atom_line_2])
         (Parser true false [Trace.StartCollecting; Trace.StopCollecting])
       = Ok (Parser i false [Trace.StartCollecting; Trace.StopCollecting]).
Proof.
  destruct (reentry_keeps_window (CoordinatesParser.config None)
              (Parser true false [Trace.StartCollecting; Trace.StopCollecting])
              leave_202 enter_202 [enter_502; leave_502]
              [atom_line_1; atom_line_2])
    as [Hreentry Hinside]; [vm_compute; reflexivity ..|].
  split; [exact Hreentry |].
  apply Hinside; [by eexists | reflexivity | vm_compute; reflexivity].
Defined.

(** C7 (the claim as stated fails): a link left while an episode is
    open is re-entered with the window still collecting, and the atom
    line of the second pass is collected without a new activator: both
    end up in one array. *)
Lemma open_episode_survives_reentry :
  LinkParser.parse_lines (CoordinatesParser.config None)
    [enter_202; " Input orientation:"; atom_line_1; leave_202; enter_202]
    LinkParser.reset
  = Ok (Parser true true [Trace.StartCollecting; Trace.Collect atom_line_1])
  /\ LinkParser.parse_lines (CoordinatesParser.config None)
       [enter_202; " Input orientation:"; atom_line_1; leave_202; enter_202;
        atom_line_2]
       LinkParser.reset
     = Ok (Parser true true
             [Trace.StartCollecting; Trace.Collect atom_line_1;
              Trace.Collect atom_line_2])
  /\ LinkParser.parse_lines (CoordinatesParser.config None)
       [enter_202; " Input orientation:"; atom_line_1; leave_202; enter_202;
        atom_line_2; " Distance matrix (angstroms):"; leave_202]
       (LinkParser.reset
          (C := CoordinatesParser.collector (FM := Decimal.model)))
     = Ok (Parser false false
             (CoordinatesParser.State [geometry_1] (Some geometry_1))).
Proof. repeat split; vm_compute; reflexivity. Qed.

(** ** The gate *)

(** C8: with the gating predicate evaluated to false, after every
    prefix of the pass the window reports [collecting = false] and the
    accumulator is the one [reset] installed, so the result is the
    empty one whatever the log holds. *)
Theorem closed_gate_collects_nothing {St : Type} {C : Collector St}
  (lnk : string) (act deact : option Re.regex)
  (lines : list string) (k : nat) :
  exists self,
    LinkParser.parse_lines (Config lnk act deact (Some false))
      (take k lines) LinkParser.reset
    = Ok self
    /\ MultiLineParser.reports_collecting
         (Config lnk act deact (Some false)) self = false
    /\ acc self = reset.
Proof.
  destruct (parse_lines_closed (Config lnk act deact (Some false))
              (take k lines) LinkParser.reset)
    as [i Hi]; [reflexivity | by left |].
  eexists. split; [exact Hi |].
  split; [| reflexivity].
  unfold MultiLineParser.reports_collecting, MultiLineParser.gate_open.
  cbn [activator condition]. destruct act; [reflexivity | apply andb_false_r].
Qed.

(** The two optimisation steps that give two arrays with an open gate
    give none with a closed one. *)
Lemma closed_gate_on_two_steps :
  LinkParser.parse_lines (CoordinatesParser.config (Some false))
    (concat (map step_lines two_steps))
    (LinkParser.reset
       (C := CoordinatesParser.collector (FM := Decimal.model)))
  = Ok (Parser false false (CoordinatesParser.State [] None)).
Proof. vm_compute. reflexivity. Qed.

(** ** One array for each geometry step *)

Lemma mapM_length {A B : Type} (f : A -> result B) (xs : list A) (ys : list B) :
  mapM f xs = Ok ys -> length ys = length xs.
Proof.
  revert ys. induction xs as [| x xs IH]; intros ys; simpl.
  { by intros [= <-]. }
  intros (y & _ & H)%bind_ok. apply bind_ok in H as (ys' & Hys & [= <-]).
  simpl. f_equal. by apply IH.
Qed.

Lemma mapM_Forall {A B : Type} (f : A -> result B) (P : B -> Prop)
  (xs : list A) (ys : list B) :
  (forall x y, f x = Ok y -> P y) ->
  mapM f xs = Ok ys -> Forall P ys.
Proof.
  intros Hf. revert ys. induction xs as [| x xs IH]; intros ys; simpl.
  { intros [= <-]. constructor. }
  intros (y & Hy & H)%bind_ok. apply bind_ok in H as (ys' & Hys & [= <-]).
  constructor; eauto.
Qed.

(** *** Rows, told from the line *)

Section rows.
Context {Float : Type} {FM : FloatModel Float}.

(** A match of the coordinates pattern holds the groups [x], [y], [z]. *)
Lemma coordinates_match (line : string) (g : Re.groups) :
  Re.search CoordinatesParser.re line = Some g ->
  exists a b c, g = [("x", a); ("y", b); ("z", c)].
Proof.
  intros H%search_names. change (group_names _) with ["x"; "y"; "z"] in H.
  destruct g as [| [n1 a] [| [n2 b] [| [n3 c] [| ? ?]]]]; simplify_eq/=.
  eauto.
Qed.

(** The row [collect] builds is the row of the tokens of the line. *)
Lemma row_of_match_xyz (line : string) (m : Re.groups) :
  Re.search CoordinatesParser.re line = Some m ->
  exists tokens,
    xyz_tokens line = Some tokens /\ row_of_match m = xyz_row tokens.
Proof.
  intros H. destruct (coordinates_match _ _ H) as (a & b & c & ->).
  exists (a, b, c). split; [unfold xyz_tokens; by rewrite H |].
  unfold row_of_match, xyz_row, CoordinatesParser.coordinate.
  cbn [Re.group].
  change (String.eqb "x" "x") with true.
  change (String.eqb "y" "x") with false.
  change (String.eqb "y" "y") with true.
  change (String.eqb "z" "x") with false.
  change (String.eqb "z" "y") with false.
  change (String.eqb "z" "z") with true. cbn iota. rewrite !ok_bind.
  destruct (float a) as [x | e]; simpl; [| reflexivity].
  destruct (float b) as [y | e]; simpl; [| reflexivity].
  by destruct (float c).
Qed.

Lemma xyz_tokens_none (line : string) :
  Re.search CoordinatesParser.re line = None -> xyz_tokens line = None.
Proof. unfold xyz_tokens. by intros ->. Qed.

(** [collect] on an open episode, told from the line. *)
Lemma collect_xyz (line : string) (done : list (Numeric.matrix Float))
  (current : list (list Float)) :
  CoordinatesParser.collect line (CoordinatesParser.State done (Some current))
  = match xyz_tokens line with
    | Some tokens =>
        xyz_row tokens ≫= fun row =>
        Ok (CoordinatesParser.State done (Some (current ++ [row])))
    | None => Ok (CoordinatesParser.State done (Some current))
    end.
Proof.
  destruct (Re.search CoordinatesParser.re line) as [m |] eqn:E.
  - destruct (row_of_match_xyz _ _ E) as (tokens & -> & <-).
    by apply coordinates_collect_match.
  - rewrite xyz_tokens_none, coordinates_ignores by done. reflexivity.
Qed.

Lemma episode_array_cons (line : string) (data : list string) :
  episode_array (line :: data)
  = match xyz_tokens line with
    | Some tokens =>
        xyz_row tokens ≫= fun row =>
        episode_array data ≫= fun rows => Ok (row :: rows)
    | None => episode_array data
    end.
Proof. unfold episode_array. simpl. by destruct (xyz_tokens line). Qed.

Lemma episode_array_snoc (data : list string) (line : string) :
  episode_array (data ++ [line])
  = episode_array data ≫= fun rows : Numeric.matrix Float =>
      match xyz_tokens line with
      | Some tokens => xyz_row tokens ≫= fun row => Ok (rows ++ [row])
      | None => Ok rows
      end.
Proof.
  unfold episode_array. rewrite omap_app, mapM_app. simpl.
  destruct (mapM xyz_row (omap xyz_tokens data)) as [rows | e];
    [| reflexivity].
  rewrite !ok_bind. destruct (xyz_tokens line) as [tokens |]; simpl.
  - by destruct (xyz_row tokens).
  - by rewrite app_nil_r.
Qed.

(** The array [collect] builds over an episode is the array of the
    data lines. *)
Lemma geometry_episode_array (data : list string) :
  geometry data = episode_array data.
Proof.
  induction data as [| line data IH]; [reflexivity |].
  rewrite geometry_cons, episode_array_cons, IH.
  destruct (Re.search CoordinatesParser.re line) as [m |] eqn:E.
  - by destruct (row_of_match_xyz _ _ E) as (tokens & -> & <-).
  - by rewrite xyz_tokens_none.
Qed.

(** The array of an episode has one row of three numbers for each
    data line the pattern matches. *)
Lemma episode_array_shape (data : list string) (a : Numeric.matrix Float) :
  episode_array data = Ok a ->
  length a = length (omap xyz_tokens data)
  /\ Forall (fun row => length row = 3%nat) a.
Proof.
  unfold episode_array. intros H. split; [by eapply mapM_length |].
  eapply mapM_Forall; [| exact H].
  intros [[x y] z] row Hrow. unfold xyz_row in Hrow.
  apply bind_ok in Hrow as (x' & _ & Hrow).
  apply bind_ok in Hrow as (y' & _ & Hrow).
  apply bind_ok in Hrow as (z' & _ & [= <-]). reflexivity.
Qed.

(** *** Episodes, told from the log *)

(** A number that does not read in the episode being read is the
    error of the log, however the log goes on. *)
Lemma episodes_from_raise (cfg : config) (lines : list string) :
  forall (data : list string) (e : exn),
    episode_array data = Raise e ->
    episode_arrays (episodes_from cfg (Some data) lines) = Raise e.
Proof.
  induction lines as [| line lines IH]; intros data e He.
  { unfold episode_arrays. simpl. by rewrite He. }
  cbn [episodes_from].
  destruct (MultiLineParser.matches (deactivator cfg) line).
  - destruct (episodes_from cfg None lines) as [finished unfinished].
    unfold episode_arrays. simpl. by rewrite He.
  - apply IH. by rewrite episode_array_snoc, He.
Qed.

(** The parser on a log, from any state it can be in: [cur] holds the
    data lines of the episode that is open, and [current] their
    rows. *)
Lemma parse_lines_episodes (log : list string) :
  forall (inside c : bool) (done : list (Numeric.matrix Float))
    (current : option (list (list Float))) (cur : option (list string)),
    match cur with
    | Some data =>
        c = true
        /\ exists rows, current = Some rows /\ episode_array data = Ok rows
    | None => c = false
    end ->
    (LinkParser.parse_lines (CoordinatesParser.config None) log
       (Parser inside c (CoordinatesParser.State done current))
     ≫= fun self => Ok (CoordinatesParser.result (acc self)))
    = episode_arrays
        (episodes_from (CoordinatesParser.config None) cur
           (visible "202" inside log))
      ≫= fun arrays => Ok (done ++ arrays).
Proof.
  set (cfg := CoordinatesParser.config None).
  induction log as [| line log IH]; intros inside c done current cur Hcur.
  { unfold episode_arrays. simpl.
    destruct cur as [data |]; simpl; [| by rewrite app_nil_r].
    destruct Hcur as (_ & rows & _ & ->). simpl. by rewrite app_nil_r. }
  rewrite parse_lines_cons. cbn [visible].
  destruct (LinkParser.leave_marker "202" line) eqn:Hleave.
  { rewrite parse_leave, ok_bind by done. by apply IH. }
  destruct inside.
  2: { rewrite parse_outside, ok_bind by done. cbn [app orb].
       change (link cfg) with "202".
       destruct (LinkParser.enter_marker "202" line); by apply IH. }
  rewrite parse_inside by done. cbn [app orb episodes_from].
  unfold MultiLineParser.parse.
  change (activator cfg)
    with (Some (Re.compiled "Input orientation:")).
  cbn [collecting acc in_link].
  destruct cur as [data |].
  - destruct Hcur as (-> & rows & -> & Hrows).
    destruct (MultiLineParser.matches (deactivator cfg) line).
    + change (stop_collecting (CoordinatesParser.State done (Some rows)))
        with (Ok (CoordinatesParser.State (done ++ [rows]) (Some rows))).
      rewrite !ok_bind, (IH true false _ _ None) by done.
      destruct (episodes_from cfg None (visible "202" true log))
        as [finished unfinished].
      unfold episode_arrays. cbn [fst snd mapM]. rewrite Hrows, !ok_bind.
      destruct (mapM episode_array finished) as [arrays | e];
        [| reflexivity].
      rewrite !ok_bind.
      destruct (mapM episode_array (option_list unfinished));
        [| reflexivity].
      rewrite !ok_bind. by rewrite <- app_assoc.
    + change (collect line (CoordinatesParser.State done (Some rows)))
        with (CoordinatesParser.collect line
                (CoordinatesParser.State done (Some rows))).
      rewrite collect_xyz.
      pose proof (episode_array_snoc data line) as Hsnoc.
      rewrite Hrows, ok_bind in Hsnoc.
      destruct (xyz_tokens line) as [tokens |].
      * destruct (xyz_row tokens) as [row | e].
        -- rewrite !ok_bind. unfold set_acc. cbn [in_link collecting].
           apply (IH true true _ _ (Some (data ++ [line]))). eauto.
        -- symmetry. rewrite (episodes_from_raise cfg _ _ e) by done.
           reflexivity.
      * rewrite !ok_bind. unfold set_acc. cbn [in_link collecting].
        apply (IH true true _ _ (Some (data ++ [line]))). eauto.
  - subst c. change (MultiLineParser.gate_open cfg) with true.
    rewrite andb_true_r.
    destruct (MultiLineParser.matches _ line).
    + rewrite ok_bind.
      change (start_collecting (CoordinatesParser.State done current))
        with (CoordinatesParser.State done (Some [])).
      apply (IH true true _ _ (Some [])). eauto.
    + rewrite ok_bind. by apply IH.
Qed.

End rows.

(** C9: on every log, the coordinates parser returns one array for
    each finished activator-to-deactivator episode of the lines read
    inside link 202, in file order (first part; a number that does not
    read is the error of the log).  The array of an episode has one row
    of three numbers for each data line the pattern matches (second
    part).  The three numbers of a line are read and taken from
    angstrom to the internal unit when [collect] appends the row to
    the open episode (third part), and [stop_collecting] appends the
    rows to the outer sequence as they are (fourth part). *)
Theorem one_array_per_episode {Float : Type} {FM : FloatModel Float}
  (log : list string) :
  (LinkParser.parse_lines (CoordinatesParser.config None) log
     LinkParser.reset
   ≫= fun self => Ok (CoordinatesParser.result (acc self)))
  = episode_arrays (geometry_episodes log)
  /\ (forall arrays,
        mapM episode_array (geometry_episodes log).1 = Ok arrays ->
        Forall2
          (fun data (a : Numeric.matrix Float) =>
             length a = length (omap xyz_tokens data)
             /\ Forall (fun row => length row = 3%nat) a)
          (geometry_episodes log).1 arrays)
  /\ (forall line (done : list (Numeric.matrix Float)) current,
        CoordinatesParser.collect line
          (CoordinatesParser.State done (Some current))
        = match xyz_tokens line with
          | Some (x, y, z) =>
              x ← float x; y ← float y; z ← float z;
              Ok (CoordinatesParser.State done
                    (Some (current
                           ++ [[from_angstrom x; from_angstrom y;
                                from_angstrom z]])))
          | None => Ok (CoordinatesParser.State done (Some current))
          end)
  /\ (forall (done : list (Numeric.matrix Float)) current,
        CoordinatesParser.stop_collecting
          (CoordinatesParser.State done (Some current))
        = Ok (CoordinatesParser.State (done ++ [current]) (Some current))).
Proof.
  split; [| split; [| split; [| done]]].
  - change LinkParser.reset
      with (Parser false false (CoordinatesParser.State (Float := Float) [] None)).
    unfold geometry_episodes.
    rewrite (parse_lines_episodes log false false [] None None) by done.
    by destruct (episode_arrays _).
  - generalize (geometry_episodes log).1. intros episodes.
    induction episodes as [| data episodes IH]; intros arrays; simpl.
    { intros [= <-]. constructor. }
    intros (a & Ha & H)%bind_ok.
    apply bind_ok in H as (arrays' & Harrays & [= <-]).
    constructor; [by apply episode_array_shape | by apply IH].
  - intros line done current. rewrite collect_xyz.
    destruct (xyz_tokens line) as [[[x y] z] |]; [| reflexivity].
    unfold xyz_row.
    destruct (float x) as [x' | e]; simpl; [| reflexivity].
    destruct (float y) as [y' | e]; simpl; [| reflexivity].
    by destruct (float z).
Qed.

Lemma one_array_per_episode_witness :
  geometry_episodes optimisation_log
  = ([geometry_block_1; geometry_block_2], Some [atom_line_1])
  /\ (LinkParser.parse_lines (CoordinatesParser.config None)
        optimisation_log
        (LinkParser.reset
           (C := CoordinatesParser.collector (FM := Decimal.model)))
      ≫= fun self => Ok (CoordinatesParser.result (acc self)))
     = Ok [geometry_1; geometry_2].
Proof.
  split; [vm_compute; reflexivity |].
  etrans.
  - apply (one_array_per_episode (FM := Decimal.model) optimisation_log).
  - vm_compute. reflexivity.
Defined.

(** ** What [HessianParser.stop_collecting] does guarantee *)

Section hessian.
Context {Float : Type} {FM : FloatModel Float}.
Implicit Types (a : Numeric.matrix Float).

Lemma foldM_invariant {A S : Type} (P : S -> Prop)
  (body : A -> S -> result S) (xs : list A) (s s' : S) :
  (forall x s1 s2, P s1 -> body x s1 = Ok s2 -> P s2) ->
  P s -> foldM body xs s = Ok s' -> P s'.
Proof.
  intros Hbody. revert s. induction xs as [| x xs IH]; intros s Hs; simpl.
  { by intros [= <-]. }
  intros (s1 & H1 & H)%bind_ok. eauto.
Qed.

Lemma zeros_square (n : nat) : square n (Numeric.zeros n n).
Proof.
  unfold square, Numeric.zeros. split; [apply length_replicate |].
  apply Forall_replicate, length_replicate.
Qed.

Lemma zeros_get (n i j : nat) :
  Numeric.get (Numeric.zeros n n) i j
  = if decide (i < n)%nat
    then if decide (j < n)%nat then Some zero else None
    else None.
Proof.
  unfold Numeric.get, Numeric.zeros, Numeric.matrix. case_decide.
  - rewrite lookup_replicate_2 by done. simpl. case_decide.
    + by rewrite lookup_replicate_2.
    + apply lookup_replicate_None. lia.
  - replace (replicate n (replicate n zero) !! i) with (@None (list Float));
      [done |].
    symmetry. apply lookup_replicate_None. lia.
Qed.

Lemma zeros_symmetric (n : nat) : symmetric (Numeric.zeros n n).
Proof. intros i j. rewrite !zeros_get. by repeat case_decide. Qed.

(** An assignment changes the one entry it names. *)
Lemma set_get (n : nat) a a' (i j : nat) (v : Float) :
  square n a ->
  Numeric.set a i j v = Ok a' ->
  square n a'
  /\ forall x y,
       Numeric.get a' x y
       = if decide (x = i /\ y = j) then Some v else Numeric.get a x y.
Proof.
  intros [Hlen Hrows]. unfold Numeric.set, Numeric.matrix in *.
  destruct (a !! i) as [row |] eqn:Hrow; [| discriminate].
  destruct (Nat.ltb_spec j (length row)) as [Hj | Hj]; [| discriminate].
  intros [= <-].
  assert (i < length a)%nat as Hi by (by eapply lookup_lt_Some).
  split.
  - split; [by rewrite length_insert |].
    apply Forall_insert; [done |]. rewrite length_insert.
    by eapply (Forall_lookup_1 _ _ _ _ Hrows).
  - intros x y. unfold Numeric.get, Numeric.matrix.
    destruct (decide (x = i)) as [-> | Hx].
    + rewrite list_lookup_insert_eq, Hrow by done. simpl.
      destruct (decide (y = j)) as [-> | Hy].
      * rewrite list_lookup_insert_eq by done.
        by rewrite decide_True.
      * rewrite list_lookup_insert_ne by done.
        by rewrite decide_False by (intros [_ ?]; done).
    + rewrite list_lookup_insert_ne by done.
      by rewrite decide_False by (intros [? _]; done).
Qed.

(** Every step of the loop keeps the array square and symmetric. *)
Lemma store_symmetric (n row_index : nat) (entry : nat * Float) a a' :
  square n a -> symmetric a ->
  HessianParser.store row_index entry a = Ok a' ->
  square n a' /\ symmetric a'.
Proof.
  destruct entry as [col_index value]. intros Hsq Hsym.
  unfold HessianParser.store.
  intros (a1 & H1 & H2)%bind_ok.
  destruct (set_get _ _ _ _ _ _ Hsq H1) as [Hsq1 Hget1].
  destruct (Nat.eqb_spec row_index col_index) as [<- | Hne]; simpl in H2.
  - injection H2 as <-. split; [done |].
    intros i j. rewrite !Hget1.
    repeat case_decide; first [done | apply Hsym | lia].
  - destruct (set_get _ _ _ _ _ _ Hsq1 H2) as [Hsq2 Hget2].
    split; [done |].
    intros i j. rewrite !Hget2, !Hget1.
    repeat case_decide; first [done | apply Hsym | lia].
Qed.

(** Whatever rows were collected, a [stop_collecting] that does not
    raise leaves a square, symmetric array with one row for each row
    of the list. *)
Lemma stop_collecting_symmetric (self self' : HessianParser.state Float) :
  HessianParser.stop_collecting self = Ok self' ->
  exists a,
    self' = HessianParser.Array a
    /\ square (length (HessianParser.rows_of self)) a
    /\ symmetric a.
Proof.
  unfold HessianParser.stop_collecting.
  intros (a & Ha & [= <-])%bind_ok. exists a. split; [done |].
  set (n := length (HessianParser.rows_of self)) in *.
  apply (foldM_invariant (fun a => square n a /\ symmetric a)) in Ha;
    [done | | split; [apply zeros_square | apply zeros_symmetric]].
  intros [row_index row] a1 a2 Ha1.
  apply (foldM_invariant (fun a => square n a /\ symmetric a)); [| done].
  intros entry a3 a4 [Hsq Hsym]. by apply store_symmetric.
Qed.

End hessian.

(** * Further properties of the parsers *)

(** ** [enumerate] *)

Lemma zip_seq_lookup {A : Type} (xs : list A) (k i : nat) :
  zip (seq k (length xs)) xs !! i = (fun x => ((k + i)%nat, x)) <$> xs !! i.
Proof.
  revert k i. induction xs as [| x xs IH]; intros k i; [done |].
  destruct i as [| i]; simpl.
  - by rewrite Nat.add_0_r.
  - rewrite IH. by rewrite Nat.add_succ_r.
Qed.

Lemma enumerate_lookup {A : Type} (xs : list A) (i : nat) :
  enumerate xs !! i = (fun x => (i, x)) <$> xs !! i.
Proof. apply (zip_seq_lookup xs 0 i). Qed.

Lemma forallb_enumerate {A : Type} (f : nat * A -> bool) (xs : list A)
  (i : nat) (x : A) :
  forallb f (enumerate xs) = true -> xs !! i = Some x -> f (i, x) = true.
Proof.
  intros Hall Hx. rewrite forallb_forall in Hall. apply Hall.
  apply list_elem_of_In, list_elem_of_lookup. exists i.
  by rewrite enumerate_lookup, Hx.
Qed.

(** ** [HessianParser.stop_collecting]: when it returns *)

Section hessian_bounds.
Context {Float : Type} {FM : FloatModel Float}.
Implicit Types (a : Numeric.matrix Float).

Lemma set_in_range (n : nat) a (i j : nat) (v : Float) :
  square n a -> (i < n)%nat -> (j < n)%nat ->
  exists a', Numeric.set a i j v = Ok a' /\ square n a'.
Proof.
  intros Hsq Hi Hj. pose proof Hsq as [Hlen Hrows].
  unfold Numeric.set, Numeric.matrix in *.
  destruct (a !! i) as [row |] eqn:Hrow.
  2: { apply lookup_ge_None in Hrow. lia. }
  assert (length row = n) as Hn
    by (by eapply (Forall_lookup_1 _ _ _ _ Hrows)).
  destruct (Nat.ltb_spec j (length row)) as [_ | ?]; [| lia].
  eexists. split; [done |].
  apply (set_get n a _ i j v Hsq).
  unfold Numeric.set, Numeric.matrix. rewrite Hrow.
  destruct (Nat.ltb_spec j (length row)) as [_ | ?]; [done | lia].
Qed.

Lemma set_out_of_range (n : nat) a (i j : nat) (v : Float) :
  square n a -> (n <= i)%nat \/ (n <= j)%nat ->
  Numeric.set a i j v = Raise IndexError.
Proof.
  intros [Hlen Hrows] Hij. unfold Numeric.set, Numeric.matrix in *.
  destruct (a !! i) as [row |] eqn:Hrow; [| done].
  assert (length row = n) as Hn
    by (by eapply (Forall_lookup_1 _ _ _ _ Hrows)).
  apply lookup_lt_Some in Hrow.
  destruct (Nat.ltb_spec j (length row)) as [? | _]; [lia | done].
Qed.

Lemma store_in_range (n row_index col_index : nat) (v : Float) a :
  square n a -> (row_index < n)%nat -> (col_index < n)%nat ->
  exists a',
    HessianParser.store row_index (col_index, v) a = Ok a' /\ square n a'.
Proof.
  intros Hsq Hr Hc. unfold HessianParser.store.
  destruct (set_in_range n a row_index col_index v) as (a1 & -> & Hsq1);
    [done ..|].
  rewrite ok_bind. destruct (negb _); [| by eauto].
  by apply set_in_range.
Qed.

Lemma store_out_of_range (n row_index col_index : nat) (v : Float) a :
  square n a -> (n <= col_index)%nat ->
  HessianParser.store row_index (col_index, v) a = Raise IndexError.
Proof.
  intros Hsq Hc. unfold HessianParser.store.
  by rewrite (set_out_of_range n) by auto.
Qed.

(** The inner loop over one row, from column [c] on. *)
Lemma store_row (n row_index : nat) (vs : list Float) (c : nat) a :
  square n a -> (row_index < n)%nat -> (c <= n)%nat ->
  ((c + length vs <= n)%nat ->
   exists a',
     foldM (HessianParser.store row_index) (zip (seq c (length vs)) vs) a
     = Ok a'
     /\ square n a')
  /\ ((n < c + length vs)%nat ->
      foldM (HessianParser.store row_index) (zip (seq c (length vs)) vs) a
      = Raise IndexError).
Proof.
  intros Hsq Hr. revert c a Hsq.
  induction vs as [| v vs IH]; intros c a Hsq Hcn.
  { simpl. split; [by eauto | lia]. }
  change (zip (seq c (length (v :: vs))) (v :: vs))
    with ((c, v) :: zip (seq (S c) (length vs)) vs).
  rewrite foldM_cons. cbn [length].
  destruct (decide (c < n)%nat) as [Hc | Hc].
  - destruct (store_in_range n row_index c v a) as (a1 & -> & Hsq1);
      [done ..|].
    rewrite ok_bind. destruct (IH (S c) a1 Hsq1) as [Hok Hraise]; [lia |].
    split; intros ?; [apply Hok | apply Hraise]; lia.
  - rewrite (store_out_of_range n) by (done || lia).
    split; [lia | done].
Qed.

(** The outer loop over the rows, from row [k] on. *)
Lemma store_rows (n : nat) (rows : list (list Float)) (k : nat) a :
  square n a -> (k + length rows <= n)%nat ->
  (forallb (fun row => (length row <=? n)%nat) rows = true ->
   exists a',
     foldM (fun '(row_index, row) hessian =>
              foldM (HessianParser.store row_index) (enumerate row) hessian)
           (zip (seq k (length rows)) rows) a
     = Ok a'
     /\ square n a')
  /\ (forallb (fun row => (length row <=? n)%nat) rows = false ->
      foldM (fun '(row_index, row) hessian =>
               foldM (HessianParser.store row_index) (enumerate row) hessian)
            (zip (seq k (length rows)) rows) a
      = Raise IndexError).
Proof.
  revert k a. induction rows as [| row rows IH]; intros k a Hsq Hk.
  { simpl. split; [by eauto | done]. }
  change (zip (seq k (length (row :: rows))) (row :: rows))
    with ((k, row) :: zip (seq (S k) (length rows)) rows).
  rewrite foldM_cons. cbn [forallb]. simpl in Hk.
  destruct (store_row n k row 0 a) as [Hok Hraise]; [done | lia | lia |].
  fold (enumerate row) in Hok, Hraise.
  destruct (Nat.leb_spec (length row) n) as [Hrow | Hrow]; simpl.
  - destruct Hok as (a1 & -> & Hsq1); [lia |]. rewrite ok_bind.
    apply IH; [done | lia].
  - rewrite Hraise by lia. split; [done | done].
Qed.

End hessian_bounds.

(** [HessianParser.stop_collecting] returns exactly when no row is
    longer than the number of rows; a longer row makes the assignment
    [hessian[row_index, col_index] = value] raise [IndexError]. *)
Theorem stop_collecting_returns_iff_rows_fit
  {Float : Type} {FM : FloatModel Float} (self : HessianParser.state Float) :
  (rows_fit (HessianParser.rows_of self) = true ->
   exists a,
     HessianParser.stop_collecting self = Ok (HessianParser.Array a)
     /\ square (length (HessianParser.rows_of self)) a)
  /\ (rows_fit (HessianParser.rows_of self) = false ->
      HessianParser.stop_collecting self = Raise IndexError).
Proof.
  unfold HessianParser.stop_collecting, rows_fit.
  set (rows := HessianParser.rows_of self).
  destruct (store_rows (length rows) rows 0
              (Numeric.zeros (length rows) (length rows)))
    as [Hok Hraise]; [apply zeros_square | lia |].
  fold (enumerate rows) in Hok, Hraise. split.
  - intros (a & -> & Hsq)%Hok. by exists a.
  - intros ->%Hraise. done.
Qed.

Lemma stop_collecting_returns_iff_rows_fit_witness :
  (exists a,
     HessianParser.stop_collecting (FM := Decimal.model)
       (HessianParser.Rows [ [1]; [2; 3] ]%Q)
     = Ok (HessianParser.Array a)
     /\ square 2 a)
  /\ HessianParser.stop_collecting (FM := Decimal.model)
       (HessianParser.Rows [ [1; 2; 3]; [4] ]%Q)
     = Raise IndexError.
Proof.
  split.
  - apply (proj1 (stop_collecting_returns_iff_rows_fit
                    (HessianParser.Rows [ [1]; [2; 3] ]%Q))).
    reflexivity.
  - apply (proj2 (stop_collecting_returns_iff_rows_fit
                    (HessianParser.Rows [ [1; 2; 3]; [4] ]%Q))).
    reflexivity.
Defined.

(** Whatever rows were collected, a [stop_collecting] that does not
    raise leaves a square, symmetric array with one row for each row
    of the list. *)
Theorem stop_collecting_leaves_symmetric_array
  {Float : Type} {FM : FloatModel Float}
  (self self' : HessianParser.state Float) :
  HessianParser.stop_collecting self = Ok self' ->
  exists a,
    self' = HessianParser.Array a
    /\ square (length (HessianParser.rows_of self)) a
    /\ symmetric a.
Proof. apply stop_collecting_symmetric. Qed.

Lemma stop_collecting_leaves_symmetric_array_witness :
  exists a,
    HessianParser.Array [ [1; 2]; [2; 3] ]%Q = HessianParser.Array a
    /\ square 2 a
    /\ symmetric a.
Proof.
  apply (stop_collecting_leaves_symmetric_array (FM := Decimal.model)
           (HessianParser.Rows [ [1]; [2; 3] ]%Q)).
  vm_compute. reflexivity.
Defined.

(** ** [HessianParser.stop_collecting]: the lower triangle *)

Section hessian_values.
Context {Float : Type} {FM : FloatModel Float}.
Implicit Types (a : Numeric.matrix Float) (rows : list (list Float)).

Lemma lower_triangular_lookup rows (i j : nat) (row : list Float) (v : Float) :
  lower_triangular rows = true ->
  rows !! i = Some row -> row !! j = Some v -> (j <= i)%nat.
Proof.
  intros Hlow Hrow Hv.
  pose proof (forallb_enumerate _ _ _ _ Hlow Hrow) as Hlen. simpl in Hlen.
  apply Nat.leb_le in Hlen. apply lookup_lt_Some in Hv. lia.
Qed.

(** Storing the next entry keeps the earlier ones. *)
Lemma store_stored (n : nat) rows (k m : nat) (row : list Float) (v : Float)
  a a' :
  lower_triangular rows = true ->
  square n a -> stored rows k m a ->
  rows !! k = Some row -> row !! m = Some v ->
  HessianParser.store k (m, v) a = Ok a' ->
  square n a' /\ stored rows k (S m) a'.
Proof.
  intros Hlow Hsq Hst Hrow Hv. unfold HessianParser.store.
  intros (a1 & H1 & H2)%bind_ok.
  destruct (set_get _ _ _ _ _ _ Hsq H1) as [Hsq1 Hget1].
  pose proof (lower_triangular_lookup _ _ _ _ _ Hlow Hrow Hv) as Hmk.
  assert (forall x y,
            Numeric.get a' x y
            = if decide ((x = k /\ y = m) \/ (x = m /\ y = k))
              then Some v else Numeric.get a x y) as Hget.
  { destruct (Nat.eqb_spec k m) as [<- | Hne]; simpl in H2.
    - injection H2 as <-. intros x y. rewrite Hget1.
      repeat case_decide; first [done | lia].
    - destruct (set_get _ _ _ _ _ _ Hsq1 H2) as [_ Hget2].
      intros x y. rewrite Hget2, Hget1.
      repeat case_decide; first [done | lia]. }
  split.
  { destruct (Nat.eqb_spec k m); simpl in H2; [by injection H2 as <- |].
    by destruct (set_get _ _ _ _ _ _ Hsq1 H2). }
  intros i j row' v' Hij Hrow' Hv'. rewrite !Hget.
  pose proof (lower_triangular_lookup _ _ _ _ _ Hlow Hrow' Hv') as Hji.
  destruct (decide (i = k /\ j = m)) as [[-> ->] | Hnew].
  - simplify_eq. split; case_decide; first [done | lia].
  - destruct (Hst i j row' v') as [Hg1 Hg2]; [lia | done | done |].
    split; case_decide; first [done | lia].
Qed.

(** The inner loop stores the rest of row [k]. *)
Lemma store_row_stored (n : nat) rows (k : nat) (row vs : list Float)
  (c : nat) a a' :
  lower_triangular rows = true ->
  rows !! k = Some row -> drop c row = vs ->
  square n a -> stored rows k c a ->
  foldM (HessianParser.store k) (zip (seq c (length vs)) vs) a = Ok a' ->
  square n a' /\ stored rows k (c + length vs) a'.
Proof.
  intros Hlow Hrow. revert c a.
  induction vs as [| v vs IH]; intros c a Hdrop Hsq Hst.
  { simpl. rewrite Nat.add_0_r. by intros [= <-]. }
  change (zip (seq c (length (v :: vs))) (v :: vs))
    with ((c, v) :: zip (seq (S c) (length vs)) vs).
  rewrite foldM_cons. intros (a1 & H1 & H2)%bind_ok.
  assert (row !! c = Some v) as Hv.
  { rewrite <- (Nat.add_0_r c), <- lookup_drop, Hdrop. done. }
  destruct (store_stored n rows k c row v a a1) as [Hsq1 Hst1]; [done ..|].
  cbn [length]. rewrite <- Nat.add_succ_comm.
  apply (IH (S c) a1); [| done | done | done].
  replace (S c) with (c + 1)%nat by lia.
  rewrite <- (drop_drop row 1 c), Hdrop. done.
Qed.

(** The outer loop stores the rest of the rows. *)
Lemma store_rows_stored (n : nat) rows (rs : list (list Float)) (k : nat)
  a a' :
  lower_triangular rows = true ->
  drop k rows = rs ->
  square n a -> stored rows k 0 a ->
  foldM (fun '(row_index, row) hessian =>
           foldM (HessianParser.store row_index) (enumerate row) hessian)
        (zip (seq k (length rs)) rs) a
  = Ok a' ->
  square n a' /\ stored rows (k + length rs) 0 a'.
Proof.
  intros Hlow. revert k a.
  induction rs as [| row rs IH]; intros k a Hdrop Hsq Hst.
  { simpl. rewrite Nat.add_0_r. by intros [= <-]. }
  change (zip (seq k (length (row :: rs))) (row :: rs))
    with ((k, row) :: zip (seq (S k) (length rs)) rs).
  rewrite foldM_cons. intros (a1 & H1 & H2)%bind_ok.
  assert (rows !! k = Some row) as Hrow.
  { rewrite <- (Nat.add_0_r k), <- lookup_drop, Hdrop. done. }
  destruct (store_row_stored n rows k row row 0 a a1) as [Hsq1 Hst1];
    [done ..|].
  cbn [length]. rewrite <- Nat.add_succ_comm.
  apply (IH (S k) a1); [| done | | done].
  - replace (S k) with (k + 1)%nat by lia.
    rewrite <- (drop_drop rows 1 k), Hdrop. done.
  - intros i j row' v' Hij Hrow' Hv'. apply (Hst1 i j row' v'); [| done ..].
    destruct (decide (i = k)) as [-> |]; [right | left; lia].
    simplify_eq. split; [done |]. by eapply lookup_lt_Some.
Qed.

End hessian_values.

Lemma stop_collecting_lower_triangle
  {Float : Type} {FM : FloatModel Float} (rows : list (list Float)) :
  lower_triangular rows = true ->
  exists a,
    HessianParser.stop_collecting (HessianParser.Rows rows)
    = Ok (HessianParser.Array a)
    /\ square (length rows) a
    /\ forall i j row v,
         rows !! i = Some row -> row !! j = Some v ->
         Numeric.get a i j = Some v /\ Numeric.get a j i = Some v.
Proof.
  intros Hlow. unfold HessianParser.stop_collecting.
  cbn [HessianParser.rows_of].
  assert (forallb (fun row => (length row <=? length rows)%nat) rows = true)
    as Hfit.
  { apply forallb_forall. intros row Hin.
    apply list_elem_of_In, list_elem_of_lookup in Hin as [i Hi].
    pose proof (forallb_enumerate _ _ _ _ Hlow Hi) as Hlen. simpl in Hlen.
    apply Nat.leb_le in Hlen. apply Nat.leb_le.
    apply lookup_lt_Some in Hi. lia. }
  destruct (store_rows (length rows) rows 0
              (Numeric.zeros (length rows) (length rows)))
    as [Hok _]; [apply zeros_square | lia |].
  destruct (Hok Hfit) as (a & Ha & Hsq). fold (enumerate rows) in Ha.
  exists a. rewrite Ha. split; [done |]. split; [done |].
  destruct (store_rows_stored (length rows) rows rows 0
              (Numeric.zeros (length rows) (length rows)) a)
    as [_ Hst]; [done | done | apply zeros_square | | exact Ha |].
  { intros i j row v Hij. lia. }
  intros i j row v Hrow Hv. apply (Hst i j row v); [| done | done].
  left. apply lookup_lt_Some in Hrow. lia.
Qed.

(** Given the rows of a lower triangle, [HessianParser.stop_collecting]
    returns the square array that holds every collected entry at its
    place and at the mirrored place: [M[i][j] = M[j][i] = rows[i][j]]. *)
Theorem stop_collecting_mirrors_lower_triangle
  {Float : Type} {FM : FloatModel Float} (rows : list (list Float)) :
  lower_triangular rows = true ->
  exists a,
    HessianParser.stop_collecting (HessianParser.Rows rows)
    = Ok (HessianParser.Array a)
    /\ square (length rows) a
    /\ forall i j row v,
         rows !! i = Some row -> row !! j = Some v ->
         Numeric.get a i j = Some v /\ Numeric.get a j i = Some v.
Proof. apply stop_collecting_lower_triangle. Qed.

Lemma stop_collecting_mirrors_lower_triangle_witness :
  exists a,
    HessianParser.stop_collecting (FM := Decimal.model)
      (HessianParser.Rows [ [1]; [2; 3] ]%Q)
    = Ok (HessianParser.Array a)
    /\ square 2 a
    /\ forall i j row v,
         [ [1]; [2; 3] ]%Q !! i = Some row -> row !! j = Some v ->
         Numeric.get a i j = Some v /\ Numeric.get a j i = Some v.
Proof.
  apply (stop_collecting_mirrors_lower_triangle (FM := Decimal.model)
           [ [1]; [2; 3] ]%Q).
  reflexivity.
Defined.

(** ** [HessianParser.collect]: which row a data line goes to *)

Section hessian_collect.
Context {Float : Type} {FM : FloatModel Float}.
Implicit Types (rows : list (list Float)) (line : string).

Lemma index_first {A : Type} (x0 : A) (xs : list A) :
  Py.index (x0 :: xs) 0 = Ok x0.
Proof.
  unfold Py.index. cbn [length]. change (0 <? 0) with false. cbn iota.
  destruct (Z.leb_spec (Z.of_nat (S (length xs))) 0); [lia |].
  reflexivity.
Qed.

(** [xs[i]] for an index in range, counted from the front or, when
    negative, from the end. *)
Lemma index_in_range {A : Type} (xs : list A) (i : Z) :
  - Z.of_nat (length xs) <= i < Z.of_nat (length xs) ->
  exists x,
    xs !! Z.to_nat (i mod Z.of_nat (length xs)) = Some x
    /\ Py.index xs i = Ok x
    /\ Py.position xs i = Ok (Z.to_nat (i mod Z.of_nat (length xs))).
Proof.
  intros Hi. unfold Py.index, Py.position.
  set (n := Z.of_nat (length xs)) in *.
  assert (i mod n = if i <? 0 then i + n else i) as ->.
  { destruct (Z.ltb_spec i 0).
    - symmetry. apply (Z.mod_unique_pos _ _ (-1)); lia.
    - apply Z.mod_small. lia. }
  set (j := if i <? 0 then i + n else i).
  assert (0 <= j < n) as Hj by (unfold j; destruct (Z.ltb_spec i 0); lia).
  destruct (Z.ltb_spec j 0); [lia |].
  destruct (Z.leb_spec n j); [lia |]. simpl.
  destruct (xs !! Z.to_nat j) as [x |] eqn:Hx; [by exists x |].
  apply lookup_ge_None in Hx. lia.
Qed.

Lemma index_out_of_range {A : Type} (xs : list A) (i : Z) :
  i < - Z.of_nat (length xs) \/ Z.of_nat (length xs) <= i ->
  Py.position xs i = Raise IndexError.
Proof.
  intros Hi. unfold Py.position.
  set (n := Z.of_nat (length xs)) in *.
  destruct (Z.ltb_spec i 0) as [Hneg | Hpos].
  - destruct (Z.ltb_spec (i + n) 0); [reflexivity |].
    destruct (Z.leb_spec n (i + n)); [reflexivity | lia].
  - destruct (Z.ltb_spec i 0); [lia |].
    destruct (Z.leb_spec n i); [reflexivity | lia].
Qed.

(** The loop over the words appends their values to the row. *)
Lemma append_words_values (words : list string) (row : list Float) :
  HessianParser.append_words words row
  = mapM (fun word => float (Py.replace "D" "e" word)) words
    ≫= fun vs => Ok (row ++ vs).
Proof.
  unfold HessianParser.append_words. revert row.
  induction words as [| w words IH]; intros row.
  { simpl. by rewrite app_nil_r. }
  rewrite foldM_cons. cbn [mapM].
  destruct (float (Py.replace "D" "e" w)) as [v | e]; [| reflexivity].
  rewrite !ok_bind, IH.
  destruct (mapM _ words) as [vs | e]; [| reflexivity].
  rewrite !ok_bind. by rewrite <- app_assoc.
Qed.

(** What [collect] does with a data line, by its row number [r]:
    a new row when [r] is at least the number of rows, else the row
    [self.hessian[r - 1]]. *)
Lemma collect_data_line rows line (r : Z) :
  row_number line = Some r ->
  HessianParser.collect line (HessianParser.Rows rows)
  = if Z.of_nat (length rows) <=? r then
      row_values line ≫= fun vs => Ok (HessianParser.Rows (rows ++ [vs]))
    else
      Py.position rows (r - 1) ≫= fun i =>
      Py.index rows (r - 1) ≫= fun old =>
      row_values line ≫= fun vs =>
      Ok (HessianParser.Rows (<[i := old ++ vs]> rows)).
Proof.
  unfold row_number, HessianParser.collect, row_values.
  destruct (Py.split line) as [| w0 [| w1 ws]]; [done | done |].
  rewrite index_second, index_first, !ok_bind.
  destruct (Py.contains "D" w1); [| done].
  destruct (Py.int w0) as [r' | e]; [| done]. intros [= ->].
  rewrite ok_bind, !append_words_values. cbn [app].
  destruct (Z.of_nat (length rows) <=? r).
  { by destruct (mapM _ _). }
  destruct (Py.position rows (r - 1)) as [i | e]; [| reflexivity].
  destruct (Py.index rows (r - 1)) as [old | e]; [| reflexivity].
  rewrite !ok_bind, append_words_values. by destruct (mapM _ _).
Qed.

End hessian_collect.

Lemma collect_new_rows_fold {Float : Type} {FM : FloatModel Float}
  (lines : list string) (rows : list (list Float)) :
  new_rows (length rows) lines = true ->
  foldM HessianParser.collect lines (HessianParser.Rows rows)
  = mapM row_values lines
    ≫= fun new => Ok (HessianParser.Rows (rows ++ new)).
Proof.
  revert rows. induction lines as [| line lines IH]; intros rows.
  { intros _. simpl. by rewrite app_nil_r. }
  cbn [new_rows]. destruct (row_number line) as [r |] eqn:Hr; [| done].
  intros [Hlen Hrest]%andb_prop.
  rewrite foldM_cons, (collect_data_line rows line r Hr), Hlen.
  cbn [mapM]. destruct (row_values line) as [vs | e]; [| reflexivity].
  rewrite !ok_bind, IH by (by rewrite length_app, Nat.add_1_r).
  destruct (mapM row_values lines) as [new | e]; [| reflexivity].
  rewrite !ok_bind. by rewrite <- app_assoc.
Qed.

(** Data lines whose row numbers are not below the number of rows
    already there (as the first lines of the rows 1, 2, 3, ... are)
    each start a new row: collecting them appends their rows of
    numbers, in order, each number read after [D] is turned into [e]. *)
Theorem collect_starts_new_rows {Float : Type} {FM : FloatModel Float}
  (lines : list string) (rows : list (list Float)) :
  new_rows (length rows) lines = true ->
  foldM HessianParser.collect lines (HessianParser.Rows rows)
  = mapM row_values lines
    ≫= fun new => Ok (HessianParser.Rows (rows ++ new)).
Proof. apply collect_new_rows_fold. Qed.

Lemma collect_starts_new_rows_witness :
  foldM (HessianParser.collect (FM := Decimal.model))
    [ "      1  0.11D+02"; "      2  0.21D+02  0.22D+02" ]
    (HessianParser.Rows [])
  = Ok (HessianParser.Rows [ [11]; [21; 22] ]%Q).
Proof.
  etrans.
  - apply (collect_starts_new_rows (FM := Decimal.model)
             [ "      1  0.11D+02"; "      2  0.21D+02  0.22D+02" ] []).
    vm_compute. reflexivity.
  - vm_compute. reflexivity.
Defined.

(** A further line of a row that is not the last one extends that row
    and leaves the others as they are; row number 0 is
    [self.hessian[-1]], the last row; a row number below
    [1 - len(self.hessian)] raises [IndexError]. *)
Theorem collect_continues_row {Float : Type} {FM : FloatModel Float}
  (rows : list (list Float)) (line : string) (r : Z) :
  row_number line = Some r ->
  r < Z.of_nat (length rows) ->
  (1 - Z.of_nat (length rows) <= r ->
   exists old,
     rows !! Z.to_nat ((r - 1) mod Z.of_nat (length rows)) = Some old
     /\ HessianParser.collect line (HessianParser.Rows rows)
        = row_values line ≫= fun vs =>
            Ok (HessianParser.Rows
                  (<[Z.to_nat ((r - 1) mod Z.of_nat (length rows))
                     := old ++ vs]> rows)))
  /\ (r < 1 - Z.of_nat (length rows) ->
      HessianParser.collect line (HessianParser.Rows rows)
      = Raise IndexError).
Proof.
  intros Hr Hlen. rewrite (collect_data_line rows line r Hr).
  destruct (Z.leb_spec (Z.of_nat (length rows)) r); [lia |].
  split; intros Hlow.
  - destruct (index_in_range rows (r - 1)) as (old & Hold & -> & ->);
      [lia |].
    exists old. by rewrite !ok_bind.
  - by rewrite index_out_of_range by lia.
Qed.

Lemma collect_continues_row_witness :
  HessianParser.collect (FM := Decimal.model) "      2  0.23D+02"
    (HessianParser.Rows [ [11]; [21; 22]; [31] ]%Q)
  = Ok (HessianParser.Rows [ [11]; [21; 22; 23]; [31] ]%Q)
  /\ HessianParser.collect (FM := Decimal.model) "      0  0.32D+02"
       (HessianParser.Rows [ [11]; [21; 22]; [31] ]%Q)
     = Ok (HessianParser.Rows [ [11]; [21; 22]; [31; 32] ]%Q)
  /\ HessianParser.collect (FM := Decimal.model) "     -3  0.32D+02"
       (HessianParser.Rows [ [11]; [21; 22]; [31] ]%Q)
     = Raise IndexError.
Proof.
  split; [| split].
  - destruct (proj1 (collect_continues_row (FM := Decimal.model)
                       [ [11]; [21; 22]; [31] ]%Q "      2  0.23D+02" 2
                       eq_refl eq_refl))
      as (old & Hold & ->); [done |].
    vm_compute in Hold. injection Hold as <-. vm_compute. reflexivity.
  - destruct (proj1 (collect_continues_row (FM := Decimal.model)
                       [ [11]; [21; 22]; [31] ]%Q "      0  0.32D+02" 0
                       eq_refl eq_refl))
      as (old & Hold & ->); [done |].
    vm_compute in Hold. injection Hold as <-. vm_compute. reflexivity.
  - apply (proj2 (collect_continues_row (FM := Decimal.model)
                    [ [11]; [21; 22]; [31] ]%Q "     -3  0.32D+02" (-3)
                    eq_refl eq_refl)).
    done.
Defined.

(** ** A whole episode of [HessianParser] *)

(** When every data line of an episode starts a new row (its row
    number is at least the number of rows read before it, as in a
    block of at most five columns) and row [i] holds at most [i + 1]
    numbers, the episode returns a symmetric array with one row for
    each data line that holds every number read, at its place and at
    the mirrored place. *)
Theorem hessian_episode_of_new_rows {Float : Type} {FM : FloatModel Float}
  (lines : list string) (rows : list (list Float))
  (self : HessianParser.state Float) :
  new_rows 0 lines = true ->
  mapM row_values lines = Ok rows ->
  lower_triangular rows = true ->
  exists a,
    episode lines self = Ok (HessianParser.Array a)
    /\ square (length lines) a
    /\ symmetric a
    /\ forall i j row v,
         rows !! i = Some row -> row !! j = Some v ->
         Numeric.get a i j = Some v /\ Numeric.get a j i = Some v.
Proof.
  intros Hnew Hrows Hlow. unfold episode.
  cbn [start_collecting HessianParser.collector].
  unfold HessianParser.start_collecting.
  change (@collect _ HessianParser.collector) with HessianParser.collect.
  change (@stop_collecting _ HessianParser.collector)
    with (HessianParser.stop_collecting (Float := Float)).
  rewrite (collect_new_rows_fold lines []) by done.
  rewrite Hrows, !ok_bind. cbn [app].
  destruct (stop_collecting_lower_triangle rows Hlow)
    as (a & Ha & Hsq & Hval).
  exists a. rewrite Ha. split; [done |].
  apply mapM_length in Hrows as Hlen. rewrite <- Hlen.
  split; [done |]. split; [| done].
  apply stop_collecting_symmetric in Ha as (a' & [= <-] & _ & Hsym). done.
Qed.

Lemma hessian_episode_of_new_rows_witness :
  exists a,
    episode (C := HessianParser.collector (FM := Decimal.model))
      [ "      1  0.11D+02"; "      2  0.21D+02  0.22D+02" ]
      (HessianParser.Rows [])
    = Ok (HessianParser.Array a)
    /\ square 2 a
    /\ symmetric a
    /\ forall i j row v,
         [ [11]; [21; 22] ]%Q !! i = Some row -> row !! j = Some v ->
         Numeric.get a i j = Some v /\ Numeric.get a j i = Some v.
Proof.
  apply (hessian_episode_of_new_rows (FM := Decimal.model)
           [ "      1  0.11D+02"; "      2  0.21D+02  0.22D+02" ]
           [ [11]; [21; 22] ]%Q (HessianParser.Rows [])).
  - reflexivity.
  - vm_compute. reflexivity.
  - reflexivity.
Defined.

(** ** The frequency parsers *)

Lemma frequencies_fold {Float : Type} {FM : FloatModel Float}
  (pattern : string) (lines : list string)
  (self : FrequenciesParser.state Float) :
  foldM (FrequenciesParser.collect pattern) lines self
  = mapM float (frequency_tokens pattern lines)
    ≫= fun values => Ok (self ++ values).
Proof.
  unfold frequency_tokens. revert self.
  induction lines as [| line lines IH]; intros self.
  { simpl. by rewrite app_nil_r. }
  rewrite foldM_cons. cbn [map concat].
  change (FrequenciesParser.collect pattern line self)
    with (if String.eqb (Py.slice line None (Some (Py.len pattern))) pattern
          then mapM float (Py.split (Py.slice line (Some (Py.len pattern)) None))
               ≫= fun values => Ok (self ++ values)
          else Ok self).
  destruct (String.eqb _ pattern).
  - rewrite mapM_app.
    destruct (mapM float (Py.split _)) as [vs | e]; [| reflexivity].
    rewrite !ok_bind, IH.
    destruct (mapM float (concat _)) as [ws | e]; [| reflexivity].
    rewrite !ok_bind. by rewrite <- app_assoc.
  - rewrite ok_bind. apply IH.
Qed.

(** [FrequenciesParser.collect], line after line, appends the values of
    the words that follow the label on the lines that start with it, in
    file order; every other line contributes nothing.  The first word
    [float] rejects aborts with [float]'s exception. *)
Theorem frequencies_collect_all {Float : Type} {FM : FloatModel Float}
  (pattern : string) (lines : list string)
  (self : FrequenciesParser.state Float) :
  foldM (FrequenciesParser.collect pattern) lines self
  = mapM float (frequency_tokens pattern lines)
    ≫= fun values => Ok (self ++ values).
Proof. apply frequencies_fold. Qed.

(** No line is read by both frequency parsers: a line that starts with
    the label of one does not start with the label of the other. *)
Theorem frequency_labels_exclusive {Float : Type} {FM : FloatModel Float}
  (line : string) (low selected : FrequenciesParser.state Float) :
  FrequenciesParser.collect " Low frequencies ---" line low = Ok low
  \/ FrequenciesParser.collect " Frequencies --" line selected = Ok selected.
Proof.
  unfold FrequenciesParser.collect.
  destruct (String.eqb (Py.slice line None (Some (Py.len " Frequencies --")))
              " Frequencies --") eqn:Hsel; [| by right].
  left. apply String.eqb_eq in Hsel.
  destruct (String.eqb_spec
              (Py.slice line None (Some (Py.len " Low frequencies ---")))
              " Low frequencies ---") as [Hlow |]; [| done].
  destruct line as [| a [| b rest]]; [done | done |].
  change (Py.len " Frequencies --") with (Z.of_nat 15) in Hsel.
  change (Py.len " Low frequencies ---") with (Z.of_nat 20) in Hlow.
  rewrite slice_head_two in Hsel, Hlow. congruence.
Qed.

(** ** The mass parser *)

Section masses.
Context {Float : Type} {FM : FloatModel Float}.

(** A match of the mass pattern holds the one group [mass]. *)
Lemma mass_match (line : string) (g : Re.groups) :
  Re.search MassParser.re line = Some g ->
  exists w, g = [("mass", w)].
Proof.
  intros H%search_names. change (group_names _) with ["mass"] in H.
  destruct g as [| [n w] [| ? ?]]; simplify_eq/=. eauto.
Qed.

Lemma mass_tokens_cons (line : string) (lines : list string) :
  mass_tokens (line :: lines)
  = match Re.search MassParser.re line with
    | Some ((_, w) :: _) => w :: mass_tokens lines
    | _ => mass_tokens lines
    end.
Proof.
  unfold mass_tokens. simpl.
  by destruct (Re.search MassParser.re line) as [[| [? ?] ?] |].
Qed.

Lemma mass_collect_match (line w : string) (masses : list Float) :
  Re.search MassParser.re line = Some [("mass", w)] ->
  MassParser.collect line (MassParser.PyList masses)
  = float w ≫= fun v => Ok (MassParser.PyList (masses ++ [v])).
Proof. unfold MassParser.collect. by intros ->. Qed.

Lemma mass_collect_all (lines : list string) (masses : list Float) :
  foldM MassParser.collect lines (MassParser.PyList masses)
  = mapM float (mass_tokens lines)
    ≫= fun vs => Ok (MassParser.PyList (masses ++ vs)).
Proof.
  revert masses. induction lines as [| l lines IH]; intros masses.
  { simpl. by rewrite app_nil_r. }
  rewrite foldM_cons, mass_tokens_cons.
  destruct (Re.search MassParser.re l) as [g |] eqn:E.
  - destruct (mass_match _ _ E) as [w ->].
    rewrite (mass_collect_match _ _ _ E). cbn [mapM].
    destruct (float w) as [v | e]; [| reflexivity].
    rewrite !ok_bind, IH.
    destruct (mapM float (mass_tokens lines)) as [vs | e]; [| reflexivity].
    rewrite !ok_bind. by rewrite <- app_assoc.
  - rewrite mass_ignores, ok_bind by done. apply IH.
Qed.

End masses.

Lemma mass_episode_values_eq {Float : Type} {FM : FloatModel Float}
  (data : list string) (self : MassParser.state Float) :
  episode data self
  = mapM float (mass_tokens data)
    ≫= fun masses => Ok (MassParser.Array masses).
Proof.
  unfold episode. cbn [start_collecting MassParser.collector].
  unfold MassParser.start_collecting.
  change (@collect _ MassParser.collector) with MassParser.collect.
  rewrite mass_collect_all, bind_assoc.
  by destruct (mapM float (mass_tokens data)).
Qed.

(** An episode of [MassParser] leaves the array of the values of the
    tokens the pattern captures in the data lines, one for each
    matching line, in file order, whatever the parser held before; the
    first token [float] rejects aborts the episode with [float]'s
    exception. *)
Theorem mass_episode_values {Float : Type} {FM : FloatModel Float}
  (data : list string) (self : MassParser.state Float) :
  episode data self
  = mapM float (mass_tokens data)
    ≫= fun masses => Ok (MassParser.Array masses).
Proof. apply mass_episode_values_eq. Qed.

(** ** The exceptions of the collectors *)

Section float_errors.
Context {Float : Type} {FM : FloatModel Float}.

Lemma mapM_float_raise (tokens : list string) (e : exn) :
  mapM float tokens = Raise e ->
  exists w, In w tokens /\ float w = Raise e.
Proof.
  intros (w & Hin & Hw)%mapM_raise. exists w.
  split; [by apply list_elem_of_In | done].
Qed.

Lemma xyz_row_raise (x y z : string) (e : exn) :
  xyz_row (x, y, z) = Raise e ->
  exists w, In w [x; y; z] /\ float w = Raise e.
Proof.
  unfold xyz_row.
  destruct (float x) as [x' | e1] eqn:Ex; simpl;
    [| intros [= ->]; exists x; simpl; auto].
  destruct (float y) as [y' | e2] eqn:Ey; simpl;
    [| intros [= ->]; exists y; simpl; auto].
  destruct (float z) as [z' | e3] eqn:Ez; simpl;
    [discriminate | intros [= ->]; exists z; simpl; auto].
Qed.

Lemma episode_array_raise (data : list string) (e : exn) :
  episode_array data = Raise e ->
  exists w, In w (coordinate_tokens data) /\ float w = Raise e.
Proof.
  unfold episode_array, coordinate_tokens.
  intros ([[x y] z] & Hin & Hrow)%mapM_raise.
  apply xyz_row_raise in Hrow as (w & Hw & Hfloat).
  exists w. split; [| done].
  apply in_concat. exists [x; y; z]. split; [| done].
  apply in_map_iff. exists (x, y, z). split; [done |].
  by apply list_elem_of_In.
Qed.

End float_errors.

(** Inside an episode the mass and the coordinates collector raise no
    exception of their own, and neither do the energy and the frequency
    collector on any sequence of lines: an exception that comes out is
    one [float] raised on a token the collector took from one of the
    lines (a captured group, or a word after the label).  In particular
    the attributes an episode uses exist and the named groups are
    bound. *)
Theorem collectors_raise_only_float_errors
  {Float : Type} {FM : FloatModel Float} (e : exn) :
  (forall data (self : MassParser.state Float),
      episode data self = Raise e ->
      exists w, In w (mass_tokens data) /\ float w = Raise e)
  /\ (forall data (self : CoordinatesParser.state Float),
         episode data self = Raise e ->
         exists w, In w (coordinate_tokens data) /\ float w = Raise e)
  /\ (forall lines (self : EnergyParser.state Float),
         foldM EnergyParser.collect lines self = Raise e ->
         exists w, In w (energy_tokens lines) /\ float w = Raise e)
  /\ (forall pattern lines (self : FrequenciesParser.state Float),
         foldM (FrequenciesParser.collect pattern) lines self = Raise e ->
         exists w,
           In w (frequency_tokens pattern lines) /\ float w = Raise e).
Proof.
  repeat apply conj.
  - intros data self. rewrite mass_episode_values_eq.
    destruct (mapM float _) as [vs | e'] eqn:E; [discriminate |].
    intros [= ->]. by apply mapM_float_raise.
  - intros data self. rewrite coordinates_episode, geometry_episode_array.
    destruct (episode_array data) as [a | e'] eqn:E; [discriminate |].
    intros [= ->]. by apply episode_array_raise.
  - intros lines self. rewrite energy_collect_all.
    destruct (mapM float _) as [vs | e'] eqn:E; [discriminate |].
    intros [= ->]. by apply mapM_float_raise.
  - intros pattern lines self. rewrite frequencies_fold.
    destruct (mapM float _) as [vs | e'] eqn:E; [discriminate |].
    intros [= ->]. by apply mapM_float_raise.
Qed.

Lemma collectors_raise_only_float_errors_witness :
  exists w,
    In w (mass_tokens [ " Atom 1 has atomic number 6 and mass 12.0x";
                        " Atom 2 has atomic number 1 and mass 1.00783" ])
    /\ Decimal.float w = Raise ValueError.
Proof.
  apply (proj1 (collectors_raise_only_float_errors
                  (FM := Decimal.model) ValueError)
           [ " Atom 1 has atomic number 6 and mass 12.0x";
             " Atom 2 has atomic number 1 and mass 1.00783" ]
           (MassParser.PyList [])).
  reflexivity.
Defined.

(** * The CPMD trajectory reader *)

(** ** [__init__]: counting the atoms *)

Lemma count_atoms_some (s : string) (k : nat) (f : list string) :
  exists m,
    CPMDTrajectoryReader.count_atoms (Some s) k f = (k + m)%nat
    /\ (m <= length f)%nat
    /\ (forall i line, (i < m)%nat -> f !! i = Some line ->
          Py.slice line None (Some 7) = s)
    /\ (forall line, f !! m = Some line -> Py.slice line None (Some 7) <> s).
Proof.
  revert k. induction f as [| l f IH]; intros k; simpl.
  { exists 0%nat. split; [lia |]. split; [lia |]. split; [intros; lia | done]. }
  destruct (String.eqb_spec s (Py.slice l None (Some 7))) as [Heq | Hne]; simpl.
  - destruct (IH (S k)) as (m & -> & Hm & Hsame & Hnext).
    exists (S m). split; [lia |]. split; [lia |]. split.
    + intros [| i] line Hi; simpl; [by intros [= <-] | apply Hsame; lia].
    + intros line. simpl. apply Hnext.
  - exists 0%nat. split; [lia |]. split; [lia |]. split; [intros; lia |].
    intros line [= <-]. congruence.
Qed.

(** [__init__] counts the lines of the first frame: [num_atoms] is the
    length of the longest run of lines, from the first line on, that
    share the first line's seven leading characters.  It is 0 for an
    empty file only and never exceeds the number of lines. *)
Theorem init_counts_first_frame (f : list string) :
  let n := CPMDTrajectoryReader.num_atoms (CPMDTrajectoryReader.__init__ f) in
  (n <= length f)%nat
  /\ (n = 0%nat <-> f = [])
  /\ (forall first line i,
         f !! 0%nat = Some first -> (i < n)%nat -> f !! i = Some line ->
         Py.slice line None (Some 7) = Py.slice first None (Some 7))
  /\ (forall first line,
         f !! 0%nat = Some first -> f !! n = Some line ->
         Py.slice line None (Some 7) <> Py.slice first None (Some 7)).
Proof.
  destruct f as [| l f]; cbn [CPMDTrajectoryReader.__init__
    CPMDTrajectoryReader.num_atoms CPMDTrajectoryReader.count_atoms].
  { split; [done |]. split; [done |]. split; [| done]. intros; lia. }
  destruct (count_atoms_some (Py.slice l None (Some 7)) 1 f)
    as (m & -> & Hm & Hsame & Hnext).
  cbn zeta. split; [simpl; lia |]. split; [split; [lia | done] |]. split.
  - intros first line [| i] [= <-] Hi; simpl; [by intros [= <-] |].
    apply Hsame. lia.
  - intros first line [= <-]. apply Hnext.
Qed.

(** ** [_read_frame] and [_skip_frame] *)

Section trajectory.
Context {Float : Type} {FM : FloatModel Float}.
Implicit Types (f : list string) (self : CPMDTrajectoryReader.reader).

Lemma set_middle (before after : Numeric.matrix Float) (row : list Float)
  (i j : nat) (v : Float) :
  length before = i -> (j < length row)%nat ->
  Numeric.set (before ++ row :: after) i j v
  = Ok (before ++ <[j := v]> row :: after).
Proof.
  intros <- Hj. unfold Numeric.set, Numeric.matrix in *.
  rewrite list_lookup_middle by done.
  apply Nat.ltb_lt in Hj as ->.
  rewrite insert_app_r_alt, Nat.sub_diag by done. reflexivity.
Qed.

(** One pass of the loop fills row [i] of both arrays. *)
Lemma read_atom_values (i : nat) (line : string)
  (pos pos' vel vel' : Numeric.matrix Float) :
  length pos = i -> length vel = i ->
  CPMDTrajectoryReader.read_atom i line
    (pos ++ [zero; zero; zero] :: pos', vel ++ [zero; zero; zero] :: vel')
  = atom_values line ≫= fun '(p, v) =>
      Ok (pos ++ p :: pos', vel ++ v :: vel').
Proof.
  intros Hpos Hvel. unfold CPMDTrajectoryReader.read_atom, atom_values.
  cbn zeta. rewrite !bind_assoc.
  destruct (Py.index (Py.split line) 1) as [w1 | e]; [| reflexivity].
  rewrite !ok_bind. destruct (float w1) as [x | e]; [| reflexivity].
  rewrite !ok_bind, set_middle, !ok_bind by (done || simpl; lia).
  rewrite !bind_assoc.
  destruct (Py.index (Py.split line) 2) as [w2 | e]; [| reflexivity].
  rewrite !ok_bind. destruct (float w2) as [y | e]; [| reflexivity].
  rewrite !ok_bind, set_middle, !ok_bind by (done || simpl; lia).
  rewrite !bind_assoc.
  destruct (Py.index (Py.split line) 3) as [w3 | e]; [| reflexivity].
  rewrite !ok_bind. destruct (float w3) as [z | e]; [| reflexivity].
  rewrite !ok_bind, set_middle, !ok_bind by (done || simpl; lia).
  rewrite !bind_assoc.
  destruct (Py.index (Py.split line) 4) as [w4 | e]; [| reflexivity].
  rewrite !ok_bind. destruct (float w4) as [vx | e]; [| reflexivity].
  rewrite !ok_bind, set_middle, !ok_bind by (done || simpl; lia).
  rewrite !bind_assoc.
  destruct (Py.index (Py.split line) 5) as [w5 | e]; [| reflexivity].
  rewrite !ok_bind. destruct (float w5) as [vy | e]; [| reflexivity].
  rewrite !ok_bind, set_middle, !ok_bind by (done || simpl; lia).
  rewrite !bind_assoc.
  destruct (Py.index (Py.split line) 6) as [w6 | e]; [| reflexivity].
  rewrite !ok_bind. destruct (float w6) as [vz | e]; [| reflexivity].
  rewrite !ok_bind, set_middle, !ok_bind by (done || simpl; lia).
  reflexivity.
Qed.

(** The loop of [_read_frame]: what it hands back. *)
Lemma read_atoms_outcome (m : nat) :
  forall (k : nat) (pos vel : Numeric.matrix Float) f,
    length pos = k -> length vel = k ->
    (CPMDTrajectoryReader.read_atoms (seq k m)
       (pos ++ Numeric.zeros m 3, vel ++ Numeric.zeros m 3) f).1
    = match mapM atom_values (take m f) with
      | Raise e => CPMDTrajectoryReader.Throw (CPMDTrajectoryReader.Error e)
      | Ok rows =>
          if (m <=? length f)%nat
          then CPMDTrajectoryReader.Return
                 (pos ++ map fst rows, vel ++ map snd rows)
          else CPMDTrajectoryReader.Throw CPMDTrajectoryReader.StopIteration
      end.
Proof.
  induction m as [| m IH]; intros k pos vel f Hpos Hvel.
  { simpl. by rewrite !app_nil_r. }
  destruct f as [| line f]; [reflexivity |].
  cbn [seq CPMDTrajectoryReader.read_atoms].
  change (Numeric.zeros (S m) 3)
    with ([zero; zero; zero] :: Numeric.zeros m 3).
  rewrite read_atom_values by done. cbn [take mapM].
  destruct (atom_values line) as [[p v] | e]; [| reflexivity].
  rewrite !ok_bind. cbn beta iota.
  rewrite (cons_middle p pos), (cons_middle v vel), !app_assoc.
  rewrite (IH (S k)) by (rewrite length_app; simpl; lia).
  destruct (mapM atom_values (take m f)) as [rows | e]; [| reflexivity].
  rewrite ok_bind. change (S m <=? length (line :: f))%nat
    with (m <=? length f)%nat.
  destruct (m <=? length f)%nat; [| reflexivity].
  simpl. by rewrite <- !app_assoc.
Qed.

(** A loop that ends normally has read one line for each atom. *)
Lemma read_atoms_rest (atoms : list nat) :
  forall (fr fr' : CPMDTrajectoryReader.frame Float) f f',
    CPMDTrajectoryReader.read_atoms atoms fr f
    = (CPMDTrajectoryReader.Return fr', f') ->
    (length atoms <= length f)%nat /\ f' = drop (length atoms) f.
Proof.
  induction atoms as [| i atoms IH]; intros fr fr' f f'; simpl.
  { intros [= _ <-]. split; [lia | done]. }
  destruct f as [| line f]; [discriminate |].
  destruct (CPMDTrajectoryReader.read_atom i line fr) as [fr1 | e];
    [| discriminate].
  intros [Hlen ->]%IH. split; [simpl; lia | done].
Qed.

Lemma skip_atoms_outcome (atoms : list nat) :
  forall f,
    CPMDTrajectoryReader.skip_atoms atoms f
    = if (length atoms <=? length f)%nat
      then (CPMDTrajectoryReader.Return (), drop (length atoms) f)
      else (CPMDTrajectoryReader.Throw CPMDTrajectoryReader.StopIteration, []).
Proof.
  induction atoms as [| i atoms IH]; intros f; [reflexivity |].
  destruct f as [| line f]; [reflexivity |]. simpl. apply IH.
Qed.

Lemma read_frame_result self :
  (CPMDTrajectoryReader._read_frame self).1
  = match mapM atom_values
            (take (CPMDTrajectoryReader.num_atoms self)
               (CPMDTrajectoryReader._f self)) with
    | Raise e => CPMDTrajectoryReader.Throw (CPMDTrajectoryReader.Error e)
    | Ok rows =>
        if (CPMDTrajectoryReader.num_atoms self
            <=? length (CPMDTrajectoryReader._f self))%nat
        then CPMDTrajectoryReader.Return (map fst rows, map snd rows)
        else CPMDTrajectoryReader.Throw CPMDTrajectoryReader.StopIteration
    end.
Proof.
  unfold CPMDTrajectoryReader._read_frame. cbn zeta.
  rewrite <- (read_atoms_outcome _ 0 [] [] _ eq_refl eq_refl).
  cbn [app].
  by destruct (CPMDTrajectoryReader.read_atoms _ _ _).
Qed.

Lemma mapM_atom_values_shape (lines : list string)
  (rows : list (list Float * list Float)) :
  mapM atom_values lines = Ok rows ->
  length rows = length lines
  /\ Forall (fun row => length row = 3%nat) (map fst rows)
  /\ Forall (fun row => length row = 3%nat) (map snd rows).
Proof.
  revert rows. induction lines as [| line lines IH]; intros rows; simpl.
  { intros [= <-]. by repeat constructor. }
  intros ([p v] & Hline & H)%bind_ok.
  apply bind_ok in H as (rows' & Hrows & [= <-]).
  destruct (IH _ Hrows) as (Hlen & Hp & Hv).
  assert (length p = 3%nat /\ length v = 3%nat) as [Hp3 Hv3].
  { unfold atom_values in Hline. cbn zeta in Hline.
    apply bind_ok in Hline as (x & _ & Hline).
    apply bind_ok in Hline as (y & _ & Hline).
    apply bind_ok in Hline as (z & _ & Hline).
    apply bind_ok in Hline as (vx & _ & Hline).
    apply bind_ok in Hline as (vy & _ & Hline).
    apply bind_ok in Hline as (vz & _ & [= <- <-]). done. }
  simpl. split; [by f_equal |]. split; by constructor.
Qed.

End trajectory.

(** [_read_frame] converts the words 1 to 6 of each of the next
    [num_atoms] lines, in order.  The first word that is missing or
    that [float] rejects ends the call with that exception; if all
    lines that are left convert but fewer than [num_atoms] are left,
    the call ends with [StopIteration]; otherwise it returns the
    arrays whose rows are the converted numbers, line by line. *)
Theorem read_frame_outcome {Float : Type} {FM : FloatModel Float}
  (self : CPMDTrajectoryReader.reader) :
  (CPMDTrajectoryReader._read_frame self).1
  = match mapM atom_values
            (take (CPMDTrajectoryReader.num_atoms self)
               (CPMDTrajectoryReader._f self)) with
    | Raise e => CPMDTrajectoryReader.Throw (CPMDTrajectoryReader.Error e)
    | Ok rows =>
        if (CPMDTrajectoryReader.num_atoms self
            <=? length (CPMDTrajectoryReader._f self))%nat
        then CPMDTrajectoryReader.Return (map fst rows, map snd rows)
        else CPMDTrajectoryReader.Throw CPMDTrajectoryReader.StopIteration
    end.
Proof. apply read_frame_result. Qed.

(** [_skip_frame] drops the next [num_atoms] lines; with fewer lines
    left it ends with [StopIteration] and the file is exhausted. *)
Theorem skip_frame_outcome {Float : Type} {FM : FloatModel Float}
  (self : CPMDTrajectoryReader.reader) :
  CPMDTrajectoryReader._skip_frame self
  = let n := CPMDTrajectoryReader.num_atoms self in
    let f := CPMDTrajectoryReader._f self in
    if (n <=? length f)%nat
    then (CPMDTrajectoryReader.Return (),
          CPMDTrajectoryReader.Reader (drop n f) n)
    else (CPMDTrajectoryReader.Throw CPMDTrajectoryReader.StopIteration,
          CPMDTrajectoryReader.Reader [] n).
Proof.
  unfold CPMDTrajectoryReader._skip_frame. cbn zeta.
  rewrite skip_atoms_outcome, length_seq.
  by destruct (_ <=? _)%nat.
Qed.

(** A call of [_read_frame] that returns has read exactly [num_atoms]
    lines, hands back two arrays of [num_atoms] rows of three numbers,
    and leaves the reader as [_skip_frame] would have. *)
Theorem read_frame_returns {Float : Type} {FM : FloatModel Float}
  (self self' : CPMDTrajectoryReader.reader)
  (pos vel : Numeric.matrix Float) :
  CPMDTrajectoryReader._read_frame self
  = (CPMDTrajectoryReader.Return (pos, vel), self') ->
  let n := CPMDTrajectoryReader.num_atoms self in
  (n <= length (CPMDTrajectoryReader._f self))%nat
  /\ self' = CPMDTrajectoryReader.Reader
               (drop n (CPMDTrajectoryReader._f self)) n
  /\ CPMDTrajectoryReader._skip_frame self
     = (CPMDTrajectoryReader.Return (), self')
  /\ length pos = n /\ length vel = n
  /\ Forall (fun row => length row = 3%nat) pos
  /\ Forall (fun row => length row = 3%nat) vel.
Proof.
  intros H. cbn zeta.
  pose proof (read_frame_result self) as Hout. rewrite H in Hout.
  unfold CPMDTrajectoryReader._read_frame in H. cbn zeta in H.
  destruct (CPMDTrajectoryReader.read_atoms _ _ _) as [r f'] eqn:Hloop.
  injection H as -> <-.
  apply read_atoms_rest in Hloop as [Hlen ->]. rewrite length_seq in *.
  split; [done |]. split; [done |]. split.
  { unfold CPMDTrajectoryReader._skip_frame. cbn zeta.
    rewrite skip_atoms_outcome, length_seq.
    by apply Nat.leb_le in Hlen as ->. }
  simpl in Hout.
  destruct (mapM atom_values _) as [rows |] eqn:Hrows; [| discriminate].
  apply Nat.leb_le in Hlen as Hle. rewrite Hle in Hout.
  injection Hout as -> ->.
  apply mapM_atom_values_shape in Hrows as (Hn & Hp & Hv).
  rewrite length_take in Hn.
  rewrite !length_map. repeat split; try done; lia.
Qed.

Lemma read_frame_returns_witness :
  let self := CPMDTrajectoryReader.Reader
                [ "     1   0.0  0.0  0.0   0.5  0.0  0.0";
                  "     1   0.0  0.0  1.5   0.0  0.0 -0.5";
                  "     2   0.5  0.0  0.0   0.5  0.0  0.0";
                  "     2   0.0  0.0  2.0   0.0  0.0 -0.5" ] 2 in
  let self' := CPMDTrajectoryReader.Reader
                [ "     2   0.5  0.0  0.0   0.5  0.0  0.0";
                  "     2   0.0  0.0  2.0   0.0  0.0 -0.5" ] 2 in
  (2 <= 4)%nat
  /\ self' = CPMDTrajectoryReader.Reader
               (drop 2 (CPMDTrajectoryReader._f self)) 2
  /\ CPMDTrajectoryReader._skip_frame self
     = (CPMDTrajectoryReader.Return (), self')
  /\ length [ [0; 0; 0]; [0; 0; 3 # 2] ]%Q = 2%nat
  /\ length [ [1 # 2; 0; 0]; [0; 0; - (1 # 2)] ]%Q = 2%nat
  /\ Forall (fun row => length row = 3%nat) [ [0; 0; 0]; [0; 0; 3 # 2] ]%Q
  /\ Forall (fun row => length row = 3%nat)
       [ [1 # 2; 0; 0]; [0; 0; - (1 # 2)] ]%Q.
Proof.
  apply (read_frame_returns (FM := Decimal.model)
           (CPMDTrajectoryReader.Reader
              [ "     1   0.0  0.0  0.0   0.5  0.0  0.0";
                "     1   0.0  0.0  1.5   0.0  0.0 -0.5";
                "     2   0.5  0.0  0.0   0.5  0.0  0.0";
                "     2   0.0  0.0  2.0   0.0  0.0 -0.5" ] 2)).
  vm_compute. reflexivity.
Defined.

(** After [__init__], the first call of [_read_frame] never ends with
    [StopIteration]: it returns a frame or raises the exception of a
    malformed line.  On an empty file [num_atoms] is 0 and every call
    returns two empty arrays and leaves the reader as it was, so no
    call ever signals the end of the file. *)
Theorem first_frame_is_complete {Float : Type} {FM : FloatModel Float}
  (f : list string) :
  ((exists fr : CPMDTrajectoryReader.frame Float,
       (CPMDTrajectoryReader._read_frame (CPMDTrajectoryReader.__init__ f)).1
       = CPMDTrajectoryReader.Return fr)
   \/ (exists e,
        (CPMDTrajectoryReader._read_frame (CPMDTrajectoryReader.__init__ f)).1
        = CPMDTrajectoryReader.Throw (CPMDTrajectoryReader.Error e)))
  /\ CPMDTrajectoryReader._read_frame (CPMDTrajectoryReader.__init__ [])
     = (CPMDTrajectoryReader.Return (([] : Numeric.matrix Float),
                                     ([] : Numeric.matrix Float)),
        CPMDTrajectoryReader.__init__ []).
Proof.
  split; [| reflexivity].
  rewrite read_frame_result.
  destruct (mapM atom_values _) as [rows | e]; [| right; eauto].
  left. cbn [CPMDTrajectoryReader.__init__ CPMDTrajectoryReader.num_atoms
             CPMDTrajectoryReader._f].
  assert (CPMDTrajectoryReader.count_atoms None 0 f <= length f)%nat as Hle.
  { destruct f as [| l f]; [done |]. simpl.
    destruct (count_atoms_some (Py.slice l None (Some 7)) 1 f)
      as (m & -> & Hm & _). lia. }
  apply Nat.leb_le in Hle as ->. eauto.
Qed.

(** * The markers of [LinkParser.parse] *)

(** ** Substrings *)

Lemma length_append (a b : string) :
  String.length (a ++ b)%string = (String.length a + String.length b)%nat.
Proof. induction a as [| c a IH]; simpl; [done | by rewrite IH]. Qed.

Lemma substring_nothing (n : nat) (s : string) : substring n 0 s = EmptyString.
Proof. revert n. induction s as [| c s IH]; intros [| n]; simpl; auto. Qed.

Lemma length_substring_le (n m : nat) (s : string) :
  (String.length (substring n m s) <= m)%nat.
Proof.
  revert n m. induction s as [| c s IH]; intros [| n] [| m]; simpl;
    try lia.
  - specialize (IH 0%nat m). lia.
  - apply IH.
  - apply IH.
Qed.

Lemma substring_append (a b c : string) :
  substring (String.length a) (String.length b) (a ++ b ++ c)%string = b.
Proof.
  induction a as [| x a IH]; simpl; [| apply IH].
  induction b as [| y b IHb]; simpl; [apply substring_nothing |].
  by rewrite IHb.
Qed.

Lemma substring_cover (n m : nat) (s : string) :
  (n + m <= String.length s)%nat ->
  exists before after,
    s = (before ++ substring n m s ++ after)%string
    /\ String.length before = n
    /\ String.length after = (String.length s - n - m)%nat.
Proof.
  revert n m. induction s as [| c s IH]; intros n m; simpl.
  { intros Hlen. assert (n = 0%nat) as -> by lia.
    assert (m = 0%nat) as -> by lia. by exists EmptyString, EmptyString. }
  intros Hlen. destruct n as [| n].
  - destruct m as [| m].
    + exists EmptyString, (String c s). simpl. repeat split; lia.
    + destruct (IH 0%nat m) as (before & after & Hs & Hb & Ha); [lia |].
      destruct before; [| discriminate]. simpl in Hs.
      exists EmptyString, after. simpl. split; [by rewrite <- Hs |].
      split; [done | lia].
  - destruct (IH n m) as (before & after & Hs & Hb & Ha); [lia |].
    exists (String c before), after. simpl.
    split; [by rewrite <- Hs |]. split; [lia | lia].
Qed.

(** [line[:len(p)] == p]: the line starts with [p]. *)
Lemma slice_prefix (p line : string) :
  Py.slice line None (Some (Py.len p)) = p
  <-> exists rest, line = (p ++ rest)%string.
Proof.
  unfold Py.len. rewrite slice_head. split.
  - intros H.
    assert (String.length p <= String.length line)%nat as Hlen.
    { pose proof (length_substring_le 0
                    (String.length p `min` String.length line) line) as Hle.
      rewrite H in Hle. lia. }
    rewrite Nat.min_l in H by done.
    destruct (substring_cover 0 (String.length p) line)
      as (before & after & Hs & Hb & _); [lia |].
    destruct before; [| discriminate]. rewrite H in Hs. eauto.
  - intros [rest ->]. rewrite length_append, Nat.min_l by lia.
    apply (substring_append EmptyString p rest).
Qed.

(** [line[-6-len(link):-6] == link]: unless the link is empty, the
    link stands before the last six characters of the line. *)
Lemma slice_before_tail (lnk line : string) :
  Py.slice line (Some (-6 - Py.len lnk)) (Some (-6)) = lnk
  <-> lnk = EmptyString
      \/ exists before after,
           String.length after = 6%nat
           /\ line = (before ++ lnk ++ after)%string.
Proof.
  unfold Py.slice, Py.clamp, Py.len.
  destruct (Z.ltb_spec (-6 - Z.of_nat (String.length lnk)) 0) as [_ | ?];
    [| lia].
  change (-6 <? 0) with true. cbn iota.
  set (L := String.length lnk). set (n := String.length line).
  replace (Z.to_nat (Z.max 0 (-6 - Z.of_nat L + Z.of_nat n)))
    with (n - 6 - L)%nat by lia.
  replace (Z.to_nat (Z.max 0 (-6 + Z.of_nat n)
                     - Z.max 0 (-6 - Z.of_nat L + Z.of_nat n)))
    with (L `min` (n - 6))%nat by lia.
  split.
  - intros H. destruct lnk as [| c lnk]; [by left |]. right.
    assert (L <= n - 6)%nat as Hlen.
    { pose proof (length_substring_le (n - 6 - L) (L `min` (n - 6)) line)
        as Hle.
      rewrite H in Hle. fold L in Hle. lia. }
    assert (0 < L)%nat by (subst L; simpl; lia).
    rewrite Nat.min_l in H by done.
    destruct (substring_cover (n - 6 - L) L line)
      as (before & after & Hs & Hb & Ha); [subst n; lia |].
    rewrite H in Hs. exists before, after. split; [subst n; lia | done].
  - intros [-> | (before & after & Hafter & Hline)].
    { subst L. simpl. apply substring_nothing. }
    assert (n = String.length before + L + 6)%nat as Hn.
    { subst n L. rewrite Hline, !length_append. lia. }
    replace (n - 6 - L)%nat with (String.length before) by lia.
    rewrite Nat.min_l by lia. rewrite Hline. apply substring_append.
Qed.

(** [line[13:13+len(link)] == link]: unless the link is empty, the
    link stands after the first thirteen characters of the line. *)
Lemma slice_after_head (lnk line : string) :
  Py.slice line (Some 13) (Some (13 + Py.len lnk)) = lnk
  <-> lnk = EmptyString
      \/ exists before after,
           String.length before = 13%nat
           /\ line = (before ++ lnk ++ after)%string.
Proof.
  unfold Py.slice, Py.clamp, Py.len.
  destruct (Z.ltb_spec (13 + Z.of_nat (String.length lnk)) 0) as [? | _];
    [lia |].
  change (13 <? 0) with false. cbn iota.
  set (L := String.length lnk). set (n := String.length line).
  replace (Z.to_nat (Z.min 13 (Z.of_nat n))) with (13 `min` n)%nat by lia.
  replace (Z.to_nat (Z.min (13 + Z.of_nat L) (Z.of_nat n)
                     - Z.min 13 (Z.of_nat n)))
    with (L `min` (n - 13))%nat by lia.
  split.
  - intros H. destruct lnk as [| c lnk]; [by left |]. right.
    assert (L <= n - 13)%nat as Hlen.
    { pose proof (length_substring_le (13 `min` n) (L `min` (n - 13)) line)
        as Hle.
      rewrite H in Hle. fold L in Hle. lia. }
    assert (0 < L)%nat by (subst L; simpl; lia).
    rewrite (Nat.min_l L (n - 13)) in H by done.
    rewrite (Nat.min_l 13 n) in H by lia.
    destruct (substring_cover 13 L line)
      as (before & after & Hs & Hb & Ha); [subst n; lia |].
    rewrite H in Hs. by exists before, after.
  - intros [-> | (before & after & Hbefore & Hline)].
    { subst L. simpl. apply substring_nothing. }
    assert (n = 13 + L + String.length after)%nat as Hn.
    { subst n L. rewrite Hline, !length_append. lia. }
    rewrite (Nat.min_l 13 n), Nat.min_l by lia.
    rewrite Hline, <- Hbefore. apply substring_append.
Qed.

(** ** The two markers *)

(** A line is the entry marker of a link exactly when it starts with
    [" (Enter "] and, unless the link is empty, carries the link right
    before its last six characters: the link is found by counting from
    the end of the line, so the characters that end the line count. *)
Theorem enter_marker_shape (lnk line : string) :
  LinkParser.enter_marker lnk line = true
  <-> (exists rest, line = (" (Enter " ++ rest)%string)
      /\ (lnk = EmptyString
          \/ exists before after,
               String.length after = 6%nat
               /\ line = (before ++ lnk ++ after)%string).
Proof.
  unfold LinkParser.enter_marker.
  rewrite andb_true_iff, !String.eqb_eq, <- slice_before_tail.
  by rewrite <- (slice_prefix " (Enter " line).
Qed.

(** A line is the exit marker of a link exactly when it starts with
    [" Leave Link"] and, unless the link is empty, carries the link
    right after its first thirteen characters. *)
Theorem leave_marker_shape (lnk line : string) :
  LinkParser.leave_marker lnk line = true
  <-> (exists rest, line = (" Leave Link" ++ rest)%string)
      /\ (lnk = EmptyString
          \/ exists before after,
               String.length before = 13%nat
               /\ line = (before ++ lnk ++ after)%string).
Proof.
  unfold LinkParser.leave_marker.
  rewrite andb_true_iff, !String.eqb_eq, <- slice_after_head.
  by rewrite <- (slice_prefix " Leave Link" line).
Qed.

(** Trackers of two different links of the same length never answer
    to the same line: no line is the entry marker of both, and no line
    is the exit marker of both. *)
Theorem markers_name_one_link (lnk1 lnk2 line : string) :
  Py.len lnk1 = Py.len lnk2 -> lnk1 <> lnk2 ->
  LinkParser.enter_marker lnk1 line && LinkParser.enter_marker lnk2 line
  = false
  /\ LinkParser.leave_marker lnk1 line && LinkParser.leave_marker lnk2 line
     = false.
Proof.
  intros Hlen Hne. unfold LinkParser.enter_marker, LinkParser.leave_marker.
  rewrite Hlen. split; apply not_true_is_false.
  - intros [[_ H1%String.eqb_eq]%andb_prop [_ H2%String.eqb_eq]%andb_prop]
      %andb_prop.
    congruence.
  - intros [[_ H1%String.eqb_eq]%andb_prop [_ H2%String.eqb_eq]%andb_prop]
      %andb_prop.
    congruence.
Qed.

Lemma markers_name_one_link_witness :
  LinkParser.enter_marker "502" enter_502
  && LinkParser.enter_marker "202" enter_502 = false
  /\ LinkParser.leave_marker "502" leave_502
     && LinkParser.leave_marker "202" leave_502 = false.
Proof.
  split.
  - apply (markers_name_one_link "502" "202" enter_502); [reflexivity | done].
  - apply (markers_name_one_link "502" "202" leave_502); [reflexivity | done].
Defined.
